(** * MARLIN front-end: a shallow embedding of the page logic

    The repository is a set of React pages.  What the pages compute is
    small: a canned chat answer obtained by string replacement, a
    filter side bar that reports its state to its parent, a clamped
    "ocean health" score, and an analysis page with one fetch, three
    views (loading, error, main) and five tabs.

    Components are embedded as state records with one function per
    handler.  A handler returns the next state together with the
    effects it triggers (callback calls, network requests).  The parts
    of an [async] function on either side of an [await] are separate
    transitions. *)

From Stdlib Require Import ZArith QArith Qround Qminmax Lqa String Ascii List.
From Stdlib Require Import DecimalString.
From stdpp Require Import base option list strings gmap.
Import ListNotations.

Local Open Scope string_scope.

(** ** ECMAScript string primitives

    A character of a [string] stands for one UTF-16 code unit in the
    range 0..255, which is the range the fixed texts of the repository
    use.  The primitives follow ECMA-262 on that range. *)
Module JS.

Definition dquote : string := String (ascii_of_nat 34) EmptyString.
Definition newline : string := String (ascii_of_nat 10) EmptyString.

(** Lines of a template literal, joined by line feeds. *)
Fixpoint paragraph (lines : list string) : string :=
  match lines with
  | [] => EmptyString
  | [l] => l
  | l :: rest => l +:+ newline +:+ paragraph rest
  end.

(** [ToBoolean] on a string and on a [string | null]. *)
Definition truthy (s : string) : bool :=
  match s with EmptyString => false | String _ _ => true end.

Definition truthy_opt (o : option string) : bool :=
  match o with None => false | Some s => truthy s end.

(** [a || b] on strings. *)
Definition or_else (a b : string) : string := if truthy a then a else b.

(** [String.prototype.toLowerCase]: A-Z and the Latin-1 capitals
    U+00C0..U+00DE (U+00D7, the multiplication sign, excepted) move up
    by 32; every other code unit of the range is its own lower case. *)
Definition lower_unit (c : ascii) : ascii :=
  let n := N_of_ascii c in
  if ((65 <=? n) && (n <=? 90) ||
      (192 <=? n) && (n <=? 222) && negb (n =? 215))%N
  then ascii_of_N (n + 32) else c.

Fixpoint toLowerCase (s : string) : string :=
  match s with
  | EmptyString => EmptyString
  | String c r => String (lower_unit c) (toLowerCase r)
  end.

(** White space and line terminators below U+0100: TAB, LF, VT, FF,
    CR, SP and NBSP. *)
Definition is_white (c : ascii) : bool :=
  let n := N_of_ascii c in
  ((9 <=? n) && (n <=? 13) || (n =? 32) || (n =? 160))%N.

Fixpoint trimStart (s : string) : string :=
  match s with
  | EmptyString => EmptyString
  | String c r => if is_white c then trimStart r else s
  end.

(** [trimEnd] keeps a character when it is not white or when something
    is left after it. *)
Fixpoint trimEnd (s : string) : string :=
  match s with
  | EmptyString => EmptyString
  | String c r =>
      let r' := trimEnd r in
      if is_white c && negb (truthy r') then EmptyString else String c r'
  end.

Definition trim (s : string) : string := trimEnd (trimStart s).

(** [String.prototype.startsWith]. *)
Definition startsWith (s p : string) : bool := String.prefix p s.

Fixpoint drop (n : nat) (s : string) : string :=
  match n, s with
  | O, _ => s
  | S _, EmptyString => EmptyString
  | S k, String _ r => drop k r
  end.

(** [GetSubstitution] for a match without capture groups.  [before]
    and [after] are the parts of the subject on either side of the
    match.  Only [$$], [$&], [$`] and [$'] are special; a [$] before
    anything else, digits included, stands for itself. *)
Fixpoint GetSubstitution (matched before after replacement : string) : string :=
  match replacement with
  | EmptyString => EmptyString
  | String c r =>
      if (c =? "$")%char then
        match r with
        | String d r' =>
            if (d =? "$")%char then
              "$" +:+ GetSubstitution matched before after r'
            else if (d =? "&")%char then
              matched +:+ GetSubstitution matched before after r'
            else if (d =? "`")%char then
              before +:+ GetSubstitution matched before after r'
            else if (d =? "'")%char then
              after +:+ GetSubstitution matched before after r'
            else String c (GetSubstitution matched before after r)
        | EmptyString => String c EmptyString
        end
      else String c (GetSubstitution matched before after r)
  end.

(** [subject.replace(/pat/g, replacement)] for a literal, non-empty
    [pat]: matches are found left to right and do not overlap.  The
    scan is at position [pos] of [subject]; [skip] characters still
    belong to the last match. *)
Fixpoint replace_scan (pat replacement subject : string)
    (pos skip : nat) (s : string) : string :=
  match s with
  | EmptyString => EmptyString
  | String c r =>
      match skip with
      | S k => replace_scan pat replacement subject (S pos) k r
      | O =>
          if String.prefix pat s then
            GetSubstitution pat (String.substring 0 pos subject)
              (drop (String.length pat) s) replacement
            +:+ replace_scan pat replacement subject (S pos)
                  (Nat.pred (String.length pat)) r
          else String c (replace_scan pat replacement subject (S pos) 0 r)
      end
  end.

Definition replace_g (pat replacement subject : string) : string :=
  replace_scan pat replacement subject 0 0 subject.

(** Replacement of every occurrence by a fixed text, taken as it is. *)
Fixpoint replace_lit (pat by_ : string) (skip : nat) (s : string) : string :=
  match s with
  | EmptyString => EmptyString
  | String c r =>
      match skip with
      | S k => replace_lit pat by_ k r
      | O =>
          if String.prefix pat s then
            by_ +:+ replace_lit pat by_ (Nat.pred (String.length pat)) r
          else String c (replace_lit pat by_ 0 r)
      end
  end.

Definition replace_every (pat by_ subject : string) : string :=
  replace_lit pat by_ 0 subject.

(** A replacement text that holds one of the four special patterns. *)
Fixpoint has_pattern (replacement : string) : bool :=
  match replacement with
  | EmptyString => false
  | String c r =>
      ((c =? "$")%char &&
       match r with
       | String d _ =>
           (d =? "$")%char || (d =? "&")%char || (d =? "`")%char || (d =? "'")%char
       | EmptyString => false
       end)
      || has_pattern r
  end.

(** [Number.prototype.toString] on an integer below 10^21. *)
Definition int_toString (z : Z) : string :=
  NilZero.string_of_int (Z.to_int z).

End JS.

(** ** The chat widget ([MarlinChat]) *)
Module Chat.

Import JS.

Definition anglerFishResponse : string :=
  paragraph [
    "The fish in the image is a deep-sea anglerfish, a member of the order Lophiiformes. It's a fascinating creature known for its unique and eerie appearance, which is a result of its adaptation to life in the extreme environment of the deep sea.";
    EmptyString;
    "**Habitat and Characteristics**";
    EmptyString;
    "**Habitat:** Deep-sea anglerfish are found worldwide in the deep, dark parts of the ocean, typically in the bathypelagic or " +:+ dquote +:+ "midnight" +:+ dquote +:+ " zone, from the surface down to over 8,000 feet (2,500 meters). They are either midwater or seafloor dwellers.";
    EmptyString;
    "**Appearance:** They are famous for their menacing appearance, which includes a bulbous body, a huge mouth, and long, sharp, inwardly-pointing teeth. Their skin is typically dark, ranging from grey to dark brown.";
    EmptyString;
    "**The " +:+ dquote +:+ "Lure" +:+ dquote +:+ ":** The most distinctive feature is the bioluminescent lure that dangles from a modified dorsal fin ray on the top of the female's head. This lure, called an esca, contains millions of light-producing bacteria that glow brightly in the dark. The anglerfish can control the light, either flashing it to attract curious prey or hiding it with a muscular flap. This is a brilliant hunting strategy, as it conserves energy in a food-scarce environment.";
    EmptyString;
    "**Diet:** They are ambush predators, using their lure to attract small fish and crustaceans. Their expandable jaw and stomach allow them to swallow prey up to twice their own size.";
    EmptyString;
    "**Reproduction**";
    EmptyString;
    "The reproduction of deep-sea anglerfish is one of the most bizarre and extreme in the animal kingdom.";
    EmptyString;
    "**Sexual Dimorphism:** There is a vast difference between the sizes of the male and female anglerfish. Females are large, predatory, and have the lure. Males are tiny, often only a few centimeters long, and lack the lure or the large mouth and teeth.";
    EmptyString;
    "**Parasitic Mating:** To ensure reproduction in the vast, dark ocean where finding a mate is a rare event, some species of male anglerfish are parasitic. When a male finds a female, he bites onto her and attaches permanently. His body fuses with hers, and he becomes a permanent appendage, getting all his nutrition from her bloodstream. He essentially becomes a " +:+ dquote +:+ "sperm factory," +:+ dquote +:+ " providing her with a constant supply of sperm for fertilization.";
    EmptyString;
    "**Superstitions and Folklore**";
    EmptyString;
    "Unlike some other deep-sea creatures like the oarfish (often called the " +:+ dquote +:+ "doomsday fish" +:+ dquote +:+ " for its supposed connection to earthquakes), there are no widespread or well-known superstitions specifically about the anglerfish. Its rarity and the difficulty of observing it in its natural habitat mean it has not been a part of human folklore for very long.";
    EmptyString;
    "However, the general themes of deep-sea creatures and their appearances in shallower waters have, in recent times, been associated with superstition and portents of doom. For example, some people link the surfacing of deep-sea animals to impending environmental changes or natural disasters. These are modern interpretations rather than traditional folklore."
  ].

Definition generateResponse (query : string) (hasImage : bool) : string :=
  if hasImage then anglerFishResponse
  else
    let fishName := toLowerCase query in
    replace_g "deep-sea anglerfish" fishName
      (replace_g "The fish" ("The " +:+ fishName)
         (replace_g "anglerfish" fishName
            (replace_g "fish in the image" fishName anglerFishResponse))).

Inductive MessageType := user | assistant.

(** [timestamp] holds the time value of the [Date] object, in
    milliseconds. *)
Record ChatMessage := {
  id : string;
  type : MessageType;
  content : string;
  timestamp : Z
}.

(** The four [useState] cells of the component. *)
Record State := {
  input : string;
  messages : list ChatMessage;
  isLoading : bool;
  uploadedImage : option string
}.

Definition initial : State :=
  {| input := EmptyString; messages := []; isLoading := false;
     uploadedImage := None |}.

Definition setInput (v : string) (st : State) : State :=
  {| input := v; messages := messages st; isLoading := isLoading st;
     uploadedImage := uploadedImage st |}.

Definition setMessages (f : list ChatMessage -> list ChatMessage)
    (st : State) : State :=
  {| input := input st; messages := f (messages st);
     isLoading := isLoading st; uploadedImage := uploadedImage st |}.

Definition setIsLoading (b : bool) (st : State) : State :=
  {| input := input st; messages := messages st; isLoading := b;
     uploadedImage := uploadedImage st |}.

Definition setUploadedImage (o : option string) (st : State) : State :=
  {| input := input st; messages := messages st;
     isLoading := isLoading st; uploadedImage := o |}.

(** The file picked in the dialog, if any: its MIME type and what
    [readAsDataURL] yields for it. *)
Record File := { mime : string; dataURL : string }.

Definition handleFileUpload (file : option File) (st : State) : State :=
  match file with
  | Some f =>
      if startsWith (mime f) "image/"
      then setUploadedImage (Some (dataURL f)) st
      else st
  | None => st
  end.

(** What the part of [handleSubmit] after the [await] still holds
    from the part before it. *)
Record Pending := { query : string; hasImage : bool }.

(** [handleSubmit] up to the [await].  [now] is the reading of
    [Date.now()], [stamp] the one of [new Date()]. *)
Definition handleSubmit_begin (now stamp : Z) (st : State)
    : State * option Pending :=
  if negb (truthy (trim (input st))) && negb (truthy_opt (uploadedImage st))
  then (st, None)
  else
    let userMessage :=
      {| id := int_toString now; type := user;
         content := or_else (input st) "Image uploaded";
         timestamp := stamp |} in
    let p := {| query := input st;
                hasImage := truthy_opt (uploadedImage st) |} in
    (setUploadedImage None
       (setInput EmptyString
          (setIsLoading true
             (setMessages (fun prev => (prev ++ [userMessage])%list) st))),
     Some p).

(** [handleSubmit] after the two seconds have passed, on the state of
    that moment. *)
Definition handleSubmit_resume (now stamp : Z) (p : Pending) (st : State)
    : State :=
  let assistantMessage :=
    {| id := int_toString (now + 1); type := assistant;
       content := generateResponse (query p) (hasImage p);
       timestamp := stamp |} in
  setIsLoading false
    (setMessages (fun prev => (prev ++ [assistantMessage])%list) st).

(** A submission that nothing interrupts during the wait. *)
Definition handleSubmit (now stamp now' stamp' : Z) (st : State) : State :=
  match handleSubmit_begin now stamp st with
  | (st', Some p) => handleSubmit_resume now' stamp' p st'
  | (st', None) => st'
  end.

(** What can happen to the component: typing, picking a file, removing
    the preview, submitting the form, and a pending submission waking
    up. *)
Inductive Event :=
  | Typed (v : string)
  | FilePicked (file : option File)
  | PreviewRemoved
  | Submitted (now stamp : Z)
  | Woken (now stamp : Z).

(** The component with the submissions that wait for their timer, the
    oldest first. *)
Definition Config : Type := State * list Pending.

Definition step (e : Event) (c : Config) : Config :=
  let (st, waiting) := c in
  match e with
  | Typed v => (setInput v st, waiting)
  | FilePicked f => (handleFileUpload f st, waiting)
  | PreviewRemoved => (setUploadedImage None st, waiting)
  | Submitted now stamp =>
      match handleSubmit_begin now stamp st with
      | (st', Some p) => (st', (waiting ++ [p])%list)
      | (st', None) => (st', waiting)
      end
  | Woken now stamp =>
      match waiting with
      | p :: rest => (handleSubmit_resume now stamp p st, rest)
      | [] => c
      end
  end.

Definition run (es : list Event) (c : Config) : Config :=
  fold_left (fun c e => step e c) es c.

(** The answer in the words of the specification: the paragraph with
    every occurrence of the four texts, one text after the other,
    replaced by the lower-cased query as it is written. *)
Definition replaced_response (q : string) : string :=
  let fishName := toLowerCase q in
  replace_every "deep-sea anglerfish" fishName
    (replace_every "The fish" ("The " +:+ fishName)
       (replace_every "anglerfish" fishName
          (replace_every "fish in the image" fishName anglerFishResponse))).

(** *** Reading the conversation *)

Definition is_user (m : ChatMessage) : bool :=
  match type m with user => true | assistant => false end.

(** The texts of the user messages and of the assistant messages, each
    in the order of the list. *)
Definition questions (ms : list ChatMessage) : list string :=
  map content (List.filter is_user ms).

Definition answers (ms : list ChatMessage) : list string :=
  map content (List.filter (fun m => negb (is_user m)) ms).

(** What a submission puts in its user message, and what its
    assistant message will hold. *)
Definition shown_question (p : Pending) : string :=
  or_else (query p) "Image uploaded".

Definition answer_of (p : Pending) : string :=
  generateResponse (query p) (hasImage p).

(** The submissions answered so far, [answered], account for every
    message: the questions are those of the answered and the waiting
    submissions, the answers those of the answered ones. *)
Definition accounted (answered : list Pending) (c : Config) : Prop :=
  questions (messages (fst c)) = map shown_question (answered ++ snd c)
  /\ answers (messages (fst c)) = map answer_of answered.

End Chat.

(** ** The filter side bar ([Sidebar]) *)
Module Sidebar.

(** The object handed to [onFilterChange]. *)
Record Filters := {
  f_parameters : gmap string bool;
  f_time : string;
  f_depth : string
}.

(** The three [useState] cells. *)
Record State := {
  parameters : gmap string bool;
  time : string;
  depth : string
}.

Definition initial : State :=
  {| parameters :=
       <["temperature" := false]>
         (<["salinity" := false]> (<["chlorophyll" := false]> ∅));
     time := "last7days";
     depth := "surface" |}.

(** Property names every object inherits from [Object.prototype];
    each of them holds a function or an object. *)
Definition inherited (key : string) : bool :=
  bool_decide (key ∈ [ "constructor"; "toString"; "toLocaleString";
                       "valueOf"; "hasOwnProperty"; "isPrototypeOf";
                       "propertyIsEnumerable"; "__proto__";
                       "__defineGetter__"; "__defineSetter__";
                       "__lookupGetter__"; "__lookupSetter__" ]).

(** [!parameters[key]]: an own property is a boolean, an inherited one
    is truthy, a missing one is [undefined]. *)
Definition not_at (ps : gmap string bool) (key : string) : bool :=
  match ps !! key with
  | Some b => negb b
  | None => negb (inherited key)
  end.

(** Each handler yields the next state and the calls of
    [onFilterChange] it made, in order. *)
Definition toggleParameter (key : string) (st : State)
    : State * list Filters :=
  let newParams := <[key := not_at (parameters st) key]> (parameters st) in
  ({| parameters := newParams; time := time st; depth := depth st |},
   [ {| f_parameters := newParams; f_time := time st;
        f_depth := depth st |} ]).

(** [value] is [e.target.value]. *)
Definition changeTime (value : string) (st : State) : State * list Filters :=
  ({| parameters := parameters st; time := value; depth := depth st |},
   [ {| f_parameters := parameters st; f_time := value;
        f_depth := depth st |} ]).

Definition changeDepth (value : string) (st : State) : State * list Filters :=
  ({| parameters := parameters st; time := time st; depth := value |},
   [ {| f_parameters := parameters st; f_time := time st;
        f_depth := value |} ]).

(** The filter object that describes a state in full. *)
Definition filters_of (st : State) : Filters :=
  {| f_parameters := parameters st; f_time := time st;
     f_depth := depth st |}.

(** *** The controls on display

    One checkbox per key of [parameters], a select with four time
    ranges and a select with three depths. *)

Definition timeOptions : list string :=
  ["today"; "last7days"; "last30days"; "lastyear"].

Definition depthOptions : list string :=
  ["surface"; "midwater"; "deepwater"].

Inductive Interaction :=
  | Check (param : string)
  | PickTime (value : string)
  | PickDepth (value : string).

(** Whether the control of an interaction is on display in a state. *)
Definition offered (i : Interaction) (st : State) : bool :=
  match i with
  | Check param => bool_decide (param ∈ dom (parameters st))
  | PickTime value => bool_decide (value ∈ timeOptions)
  | PickDepth value => bool_decide (value ∈ depthOptions)
  end.

Definition interact (i : Interaction) (st : State)
    : option (State * list Filters) :=
  if offered i st then
    Some match i with
         | Check param => toggleParameter param st
         | PickTime value => changeTime value st
         | PickDepth value => changeDepth value st
         end
  else None.

(** A sequence of interactions, with all the calls of [onFilterChange]
    in order. *)
Fixpoint session (steps : list Interaction) (st : State)
    : option (State * list Filters) :=
  match steps with
  | [] => Some (st, [])
  | i :: rest =>
      match interact i st with
      | Some (st', calls) =>
          match session rest st' with
          | Some (st'', calls') => Some (st'', (calls ++ calls')%list)
          | None => None
          end
      | None => None
      end
  end.

End Sidebar.


(** ** The landing page ([Home]): the ocean health score

    Numbers are rationals.  The score is only added to, rounded to one
    decimal and clamped. *)
Module Home.

Local Open Scope Q_scope.

Definition initialOceanHealth : Q := 82 # 10.

(** [Number(x.toFixed(1))]: the tenth nearest to [x]; of two equally
    near ones [toFixed] takes the one larger in magnitude. *)
Definition toFixed1 (x : Q) : Q :=
  if Qle_bool 0 x then Qfloor (x * 10 + (1 # 2)) # 10
  else - (Qfloor ((- x) * 10 + (1 # 2)) # 10).

(** The value the updater returns for the drawn [change]. *)
Definition nextOceanHealth (prev change : Q) : Q :=
  Qmax 7 (Qmin 9 (toFixed1 (prev + change))).

(** The updater passed to [setOceanHealth]; [random] is the result of
    [Math.random()], in [0, 1). *)
Definition updateOceanHealth (random prev : Q) : Q :=
  let change := (random - (5 # 10)) * (2 # 10) in
  nextOceanHealth prev change.

(** The score after the interval has fired once per element of
    [randoms]. *)
Definition oceanHealth_after (randoms : list Q) : Q :=
  fold_left (fun prev random => updateOceanHealth random prev) randoms
    initialOceanHealth.

End Home.

(** ** The analysis page ([AnalysisPage]) *)
Module Analysis.

Import JS.

(** *** Data *)

Set Warnings "-register-all".

(** A value of type [any] that came out of [JSON.parse], or
    [undefined].  The fields of an object are in property order and
    have distinct names. *)
Inductive value :=
  | VUndefined
  | VNull
  | VBool (b : bool)
  | VNum (q : Q)
  | VStr (s : string)
  | VArr (items : list value)
  | VObj (fields : list (string * value)).

Record Visualizations := {
  correlation_heatmap : value;
  scatter_matrix : value;
  species_environment : value;
  environmental_gradients : value;
  biodiversity_hotspots : value;
  statistical_summary : value
}.

Record Metadata := {
  analysis_type : string;
  biodiversity_species : Q;
  biodiversity_points : Q;
  ocean_variables : list string;
  region : string
}.

Record CrossDomainAnalysis := {
  visualizations : Visualizations;
  metadata : Metadata
}.

Inductive Tab := overview | correlations | gradients | hotspots | statistics.

#[global] Instance Tab_eq_dec : EqDecision Tab.
Proof. solve_decision. Defined.

(** The four [useState] cells. *)
Record State := {
  crossDomainData : option CrossDomainAnalysis;
  loading : bool;
  error : option string;
  activeTab : Tab
}.

Definition initial : State :=
  {| crossDomainData := None; loading := true; error := None;
     activeTab := overview |}.

Definition setCrossDomainData (d : option CrossDomainAnalysis) (st : State) :=
  {| crossDomainData := d; loading := loading st; error := error st;
     activeTab := activeTab st |}.

Definition setLoading (b : bool) (st : State) :=
  {| crossDomainData := crossDomainData st; loading := b; error := error st;
     activeTab := activeTab st |}.

Definition setError (e : option string) (st : State) :=
  {| crossDomainData := crossDomainData st; loading := loading st;
     error := e; activeTab := activeTab st |}.

Definition setActiveTab (t : Tab) (st : State) :=
  {| crossDomainData := crossDomainData st; loading := loading st;
     error := error st; activeTab := t |}.

(** *** The request *)

Definition API_BASE_URL : string := "http://localhost:5000/api".

Inductive Method := GET | HEAD | POST | PUT | DELETE.

Record Request := { method : Method; url : string }.

(** [fetch(url)] without an init object is a GET. *)
Definition fetch (url : string) : Request := {| method := GET; url := url |}.

(** What the page reads of a response.  [json] is the outcome of
    [response.json()] under the cast to [CrossDomainAnalysis]: the
    message of the error it rejects with, or the body.  The body is
    taken at its declared type, with [metadata] and [visualizations]
    in place; only the fields typed [any] range over all values. *)
Record Response := {
  ok : bool;
  status : Z;
  json : string + CrossDomainAnalysis
}.

(** How the promise of [fetch] settles. *)
Inductive Settled :=
  | Rejected (message : string)
  | Fulfilled (response : Response).

Definition backend_down : string :=
  "Backend server is not running. Please start it with: python app.py".

Definition load_failed : string :=
  "Failed to load cross-domain analysis data".

(** [loadCrossDomainAnalysis] up to the [await] of [fetch]. *)
Definition loadCrossDomainAnalysis_begin (st : State) : State * list Request :=
  (setLoading true st, [fetch (API_BASE_URL +:+ "/cross-domain-analysis")]).

(** The rest of the [try] block: the body, or the message of what was
    thrown. *)
Definition try_block (s : Settled) : string + CrossDomainAnalysis :=
  match s with
  | Rejected message => inl message
  | Fulfilled response =>
      if negb (ok response) then
        if ((status response =? 0) || (status response >=? 500))%Z
        then inl backend_down
        else inl load_failed
      else json response
  end.

(** [loadCrossDomainAnalysis] from the settlement on, with [catch] and
    [finally]. *)
Definition loadCrossDomainAnalysis_settle (s : Settled) (st : State) : State :=
  let st' :=
    match try_block s with
    | inr data => setCrossDomainData (Some data) st
    | inl message => setError (Some message) st
    end in
  setLoading false st'.

(** *** The view *)

Inductive Action :=
  | SetActiveTab (t : Tab)
  | WindowLocationReload.

#[global] Instance Action_eq_dec : EqDecision Action.
Proof. solve_decision. Defined.

(** What the component returns, without class names, styles and keys.
    [Expr v] is a child [{v}] that React prints from the value;
    [Fixed d x] is the text of [x.toFixed(d)]; [Static h] is a block
    of fixed copy (a legend, a list of insights) under the heading [h],
    with neither data nor handlers in it. *)
Inductive Node :=
  | Text (s : string)
  | Expr (v : value)
  | Fixed (digits : nat) (x : Q)
  | El (tag : string) (onClick : option Action) (children : list Node)
  | Plotly (data layout : value) (config : list (string * bool))
  | Static (heading : string).

(** Why nothing is displayed: a [TypeError] in the component, a value
    that React does not accept as a child, or a conversion that is not
    modelled here. *)
Inductive Crash := TypeError | InvalidChild | OutsideModel.

Definition result (A : Type) : Type := Crash + A.

Definition bind {A B} (m : result A) (k : A -> result B) : result B :=
  match m with
  | inl c => inl c
  | inr a => k a
  end.

Notation "'let*' x ':=' m 'in' k" := (bind m (fun x => k))
  (at level 10, x name, m at level 100, k at level 200).

Fixpoint traverse {A B} (f : A -> result B) (l : list A) : result (list B) :=
  match l with
  | [] => inr []
  | a :: r =>
      let* b := f a in
      let* bs := traverse f r in
      inr (b :: bs)
  end.

(** The property names the page reads from [any] values. *)
Inductive Key :=
  | k_data | k_layout | k_length
  | k_biodiversity_summary | k_total_species | k_total_observations
  | k_abundance_stats | k_mean | k_min | k_max | k_std | k_unit
  | k_ocean_conditions_summary | k_correlation_insights
  | k_species | k_variable | k_correlation | k_p_value.

Definition key_name (k : Key) : string :=
  match k with
  | k_data => "data" | k_layout => "layout" | k_length => "length"
  | k_biodiversity_summary => "biodiversity_summary"
  | k_total_species => "total_species"
  | k_total_observations => "total_observations"
  | k_abundance_stats => "abundance_stats"
  | k_mean => "mean" | k_min => "min" | k_max => "max" | k_std => "std"
  | k_unit => "unit"
  | k_ocean_conditions_summary => "ocean_conditions_summary"
  | k_correlation_insights => "correlation_insights"
  | k_species => "species" | k_variable => "variable"
  | k_correlation => "correlation" | k_p_value => "p_value"
  end.

Fixpoint lookup_field (name : string) (fields : list (string * value))
    : value :=
  match fields with
  | [] => VUndefined
  | (n, v) :: r => if String.eqb n name then v else lookup_field name r
  end.

(** [v.k]: a [TypeError] on [undefined] and [null]; arrays and strings
    have a [length] and none of the other names. *)
Definition get (v : value) (k : Key) : result value :=
  match v with
  | VUndefined | VNull => inl TypeError
  | VObj fields => inr (lookup_field (key_name k) fields)
  | VArr items =>
      match k with
      | k_length => inr (VNum (inject_Z (Z.of_nat (List.length items))))
      | _ => inr VUndefined
      end
  | VStr s =>
      match k with
      | k_length => inr (VNum (inject_Z (Z.of_nat (String.length s))))
      | _ => inr VUndefined
      end
  | VBool _ | VNum _ => inr VUndefined
  end.

(** [ToBoolean]. *)
Definition truthy_value (v : value) : bool :=
  match v with
  | VUndefined | VNull => false
  | VBool b => b
  | VNum q => negb (Qeq_bool q 0)
  | VStr s => truthy s
  | VArr _ | VObj _ => true
  end.

(** [v > 0], for the operands whose [ToNumber] needs no parsing. *)
Definition gt_zero (v : value) : result bool :=
  match v with
  | VNum q => inr (negb (Qle_bool q 0))
  | VBool b => inr b
  | VUndefined | VNull => inr false
  | VStr _ | VArr _ | VObj _ => inl OutsideModel
  end.

(** [v.toFixed(d)] as a child. *)
Definition toFixed (d : nat) (v : value) : result Node :=
  match v with
  | VNum q => inr (Fixed d q)
  | _ => inl TypeError
  end.

(** The values React accepts as a child: everything but objects,
    arrays of such values included. *)
Fixpoint valid_child (v : value) : bool :=
  match v with
  | VObj _ => false
  | VArr items => forallb valid_child items
  | _ => true
  end.


(** The own enumerable properties, as [Object.entries] and the spread
    in an object literal list them. *)
Fixpoint indexed {A} (f : A -> value) (i : nat) (l : list A)
    : list (string * value) :=
  match l with
  | [] => []
  | a :: r => (int_toString (Z.of_nat i), f a) :: indexed f (S i) r
  end.

Definition own_entries (v : value) : list (string * value) :=
  match v with
  | VObj fields => fields
  | VArr items => indexed (fun x => x) 0 items
  | VStr s =>
      indexed (fun c => VStr (String c EmptyString)) 0 (list_ascii_of_string s)
  | _ => []
  end.

Definition Object_entries (v : value) : result (list (string * value)) :=
  match v with
  | VUndefined | VNull => inl TypeError
  | _ => inr (own_entries v)
  end.

(** [{...o, name: v}] on the list of fields: an existing field keeps
    its place. *)
Fixpoint assign (name : string) (v : value) (fields : list (string * value))
    : list (string * value) :=
  match fields with
  | [] => [(name, v)]
  | (n, w) :: r =>
      if String.eqb n name then (n, v) :: r else (n, w) :: assign name v r
  end.

(** [v.map(f)]: only arrays have [map]. *)
Definition array_map {B} (f : nat -> value -> result B) (v : value)
    : result (list B) :=
  match v with
  | VArr items => traverse (fun p => f (fst p) (snd p)) (imap pair items)
  | _ => inl TypeError
  end.

(** [s.charAt(0).toUpperCase() + s.slice(1)].  The capital of U+00DF
    is SS; those of U+00B5 and U+00FF lie outside the code units of
    this model. *)
Definition capitalize (s : string) : result string :=
  match s with
  | EmptyString => inr EmptyString
  | String c r =>
      let n := N_of_ascii c in
      if ((n =? 181) || (n =? 255))%N then inl OutsideModel
      else if (n =? 223)%N then inr ("SS" +:+ r)
      else if ((97 <=? n) && (n <=? 122) ||
               (224 <=? n) && (n <=? 254) && negb (n =? 247))%N
      then inr (String (ascii_of_N (n - 32)) r)
      else inr s
  end.

(** [<tag>children</tag>] without a handler. *)
Definition el (tag : string) (children : list Node) : Node :=
  El tag None children.

(** [c && k]: the falsy operand itself is the child. *)
Definition and_then (c : value) (k : result Node) : result Node :=
  if truthy_value c then k else inr (Expr c).

Definition margin50 : value :=
  VObj [("l", VNum 50); ("r", VNum 50); ("t", VNum 50); ("b", VNum 50)].

(** The [layout] prop: the payload's own layout with three fields set. *)
Definition plot_layout (layout : value) : value :=
  VObj (assign "autosize" (VBool true)
          (assign "margin" margin50
             (assign "height" (VNum 400) (own_entries layout)))).

Definition static_config : list (string * bool) :=
  [("responsive", true); ("displayModeBar", false); ("staticPlot", true)].

Definition responsive_config : list (string * bool) :=
  [("responsive", true)].

(** The [<div className="w-full h-96">] around a [PlotlyComponent]. *)
Definition plot (config : list (string * bool)) (payload : value)
    : result Node :=
  let* data := get payload k_data in
  let* layout := get payload k_layout in
  inr (el "div" [Plotly data (plot_layout layout) config]).

Definition titled_plot (title : string) (payload : value) : result Node :=
  and_then payload
    (let* p := plot static_config payload in
     inr (el "div" [el "h3" [Text title]; p])).

Definition loading_view : Node :=
  el "div"
    [el "div"
       [el "div" [];
        el "p" [Text "Loading cross-domain analysis..."]]].

Definition error_view (message : string) : Node :=
  el "div"
    [el "div"
       [el "p" [Text "Error: "; Expr (VStr message)];
        El "button" (Some WindowLocationReload) [Text "Retry"]]].

(** The four cards above the tabs.  The body is read at its declared
    type: [metadata] is in place, its two counts are numbers and
    [ocean_variables] is an array, so the three reads give a number.
    A body without [metadata], on which the reads throw, is not a
    [CrossDomainAnalysis]. *)
Definition overview_stats (d : CrossDomainAnalysis) : Node :=
  el "div"
    [el "div" [el "h3" [Text "Species Analyzed"];
               el "p" [Expr (VNum (biodiversity_species (metadata d)))]];
     el "div" [el "h3" [Text "Data Points"];
               el "p" [Expr (VNum (biodiversity_points (metadata d)))]];
     el "div" [el "h3" [Text "Ocean Variables"];
               el "p" [Expr (VNum (inject_Z (Z.of_nat
                         (List.length (ocean_variables (metadata d))))))]];
     el "div" [el "h3" [Text "Analysis Type"];
               el "p" [Text "Cross-Domain"]]].

Definition tab_button (t : Tab) (label : string) : Node :=
  El "button" (Some (SetActiveTab t)) [Text label].

Definition tab_navigation : Node :=
  el "div"
    [tab_button overview "Overview";
     tab_button correlations "Correlations";
     tab_button gradients "Environmental Gradients";
     tab_button hotspots "Biodiversity Hotspots";
     tab_button statistics "Statistics"].

Definition overview_tab : Node :=
  el "div"
    [el "h2" [Text "Analysis Overview"];
     el "p" [Text "This cross-domain analysis connects ocean conditions (temperature, salinity, oxygen) with biodiversity data to reveal patterns and relationships in the Indian Ocean ecosystem."];
     el "div" [Static "Analysis Components"; Static "Key Insights"]].

Definition correlations_tab (d : CrossDomainAnalysis) : result Node :=
  let viz := visualizations d in
  let* heatmap := titled_plot "Correlation Heatmap" (correlation_heatmap viz) in
  let* scatter :=
    titled_plot "Ocean Variables Scatter Matrix" (scatter_matrix viz) in
  let* species :=
    titled_plot "Species-Environment Relationships" (species_environment viz) in
  inr (el "div"
         [el "h2" [Text "Species-Environment Correlations"];
          el "p" [Text "Correlation analysis between ocean conditions and species abundance patterns."];
          Static "Correlation Color Legend";
          el "div" [heatmap; scatter; species]]).

Definition gradient (entry : string * value) : result Node :=
  let (variable, plotData) := entry in
  let* title := capitalize variable in
  let* p := plot static_config plotData in
  inr (el "div" [el "h3" [Expr (VStr title); Text " Gradient"]; p]).

(** [g && Object.entries(g).map(...)]: an array of elements, or the
    falsy [g]. *)
Definition gradient_list (g : value) : result (list Node) :=
  if truthy_value g then
    let* entries := Object_entries g in
    traverse gradient entries
  else inr [Expr g].

Definition gradients_tab (d : CrossDomainAnalysis) : result Node :=
  let* plots := gradient_list (environmental_gradients (visualizations d)) in
  inr (el "div"
         [el "h2" [Text "Environmental Gradients"];
          el "p" [Text "Environmental gradient analysis showing how ocean conditions vary across the region and influence species distribution."];
          Static "Environmental Gradient Color Legend";
          el "div" plots]).

Definition hotspots_tab (d : CrossDomainAnalysis) : result Node :=
  let h := biodiversity_hotspots (visualizations d) in
  let* p := and_then h (plot responsive_config h) in
  inr (el "div"
         [el "h2" [Text "Biodiversity Hotspots"];
          el "p" [Text "Analysis of biodiversity hotspots showing areas of high species density and their relationship to ocean conditions."];
          Static "Biodiversity Hotspots Color Legend";
          p]).

(** A label over a figure, as in the grid of the biodiversity
    summary. *)
Definition figure (label : string) (shown : Node) : Node :=
  el "div" [el "p" [Text label]; el "p" [shown]].

Definition biodiversity_panel (summary : value) : result Node :=
  let* b := get summary k_biodiversity_summary in
  let* total_species := get b k_total_species in
  let* total_observations := get b k_total_observations in
  let* stats := get b k_abundance_stats in
  let* mean := get stats k_mean in
  let* mean_fixed := toFixed 2 mean in
  let* stats' := get b k_abundance_stats in
  let* max := get stats' k_max in
  inr (el "div"
         [el "h3" [Text "Biodiversity Summary"];
          el "div"
            [figure "Total Species" (Expr total_species);
             figure "Total Observations" (Expr total_observations);
             figure "Mean Abundance" mean_fixed;
             figure "Max Abundance" (Expr max)]]).

(** One card of the ocean conditions, for an entry
    [[variable, stats]]. *)
Definition condition_card (entry : string * value) : result Node :=
  let (variable, stats) := entry in
  let* mean := get stats k_mean in
  let* mean_fixed := toFixed 2 mean in
  let* unit_ := get stats k_unit in
  let* min := get stats k_min in
  let* min_fixed := toFixed 2 min in
  let* max := get stats k_max in
  let* max_fixed := toFixed 2 max in
  let* std := get stats k_std in
  let* std_fixed := toFixed 2 std in
  inr (el "div"
         [el "h4" [Expr (VStr variable)];
          el "div"
            [el "p" [Text "Mean: "; mean_fixed; Text " "; Expr unit_];
             el "p" [Text "Range: "; min_fixed; Text " - "; max_fixed;
                     Text " "; Expr unit_];
             el "p" [Text "Std Dev: "; std_fixed; Text " "; Expr unit_]]]).

Definition conditions_panel (summary : value) : result Node :=
  let* conditions := get summary k_ocean_conditions_summary in
  let* entries := Object_entries conditions in
  let* cards := traverse condition_card entries in
  inr (el "div"
         [el "h3" [Text "Ocean Conditions Summary"];
          el "div" cards]).

Definition insight_row (index : nat) (insight : value) : result Node :=
  let* species := get insight k_species in
  let* variable := get insight k_variable in
  let* correlation := get insight k_correlation in
  let* correlation_fixed := toFixed 3 correlation in
  let* p_value := get insight k_p_value in
  let* p_value_fixed := toFixed 3 p_value in
  inr (el "tr"
         [el "td" [Expr species]; el "td" [Expr variable];
          el "td" [correlation_fixed]; el "td" [p_value_fixed]]).

Definition insights_table (insights : value) : result Node :=
  let* rows := array_map insight_row insights in
  inr (el "div"
         [el "h3" [Text "Significant Correlations"];
          el "div"
            [el "table"
               [el "thead"
                  [el "tr"
                     [el "th" [Text "Species"]; el "th" [Text "Variable"];
                      el "th" [Text "Correlation"]; el "th" [Text "P-value"]]];
                el "tbody" rows]]]).

(** [insights && insights.length > 0 && (...)]. *)
Definition insights_panel (summary : value) : result Node :=
  let* insights := get summary k_correlation_insights in
  if truthy_value insights then
    let* len := get insights k_length in
    let* some := gt_zero len in
    if some then insights_table insights else inr (Expr (VBool false))
  else inr (Expr insights).

Definition summary_panels (summary : value) : result Node :=
  and_then summary
    (let* biodiversity := biodiversity_panel summary in
     let* conditions := conditions_panel summary in
     let* insights := insights_panel summary in
     inr (el "div" [biodiversity; conditions; insights])).

Definition statistics_tab (d : CrossDomainAnalysis) : result Node :=
  let* panels := summary_panels (statistical_summary (visualizations d)) in
  inr (el "div"
         [el "h2" [Text "Statistical Summary"];
          el "p" [Text "Comprehensive statistical analysis of the cross-domain relationships between ocean conditions and biodiversity."];
          panels]).

(** [{activeTab === t && crossDomainData && (...)}] for the four tabs
    that show data. *)
Definition data_tab (active : bool) (data : option CrossDomainAnalysis)
    (content : CrossDomainAnalysis -> result Node) : result Node :=
  if active then
    match data with
    | Some d => content d
    | None => inr (Expr VNull)
    end
  else inr (Expr (VBool false)).

Definition is_tab (t : Tab) (st : State) : bool :=
  bool_decide (activeTab st = t).

Definition main_view (st : State) : result Node :=
  let data := crossDomainData st in
  let cards :=
    match data with
    | Some d => overview_stats d
    | None => Expr VNull
    end in
  let overview_ :=
    if is_tab overview st then overview_tab else Expr (VBool false) in
  let* correlations_ := data_tab (is_tab correlations st) data correlations_tab in
  let* gradients_ := data_tab (is_tab gradients st) data gradients_tab in
  let* hotspots_ := data_tab (is_tab hotspots st) data hotspots_tab in
  let* statistics_ := data_tab (is_tab statistics st) data statistics_tab in
  inr (el "div"
         [el "div"
            [el "h1" [Text "Cross-Domain Ocean-Biodiversity Analysis"];
             cards;
             tab_navigation;
             overview_; correlations_; gradients_; hotspots_; statistics_]]).

(** What the function [AnalysisPage] returns in a state. *)
Definition AnalysisPage (st : State) : result Node :=
  if loading st then inr loading_view
  else if truthy_opt (error st) then
    inr (error_view (default EmptyString (error st)))
  else main_view st.

(** The handlers on display, in document order. *)
Fixpoint handlers (n : Node) : list Action :=
  match n with
  | El _ onClick children =>
      (match onClick with Some a => [a] | None => [] end)
      ++ flat_map handlers children
  | _ => []
  end.

(** Everything the tree shows, in document order, with the markup
    dropped. *)
Fixpoint shown (n : Node) : list Node :=
  match n with
  | El _ _ children => flat_map shown children
  | leaf => [leaf]
  end.

(** A tree without handlers. *)
Definition inert (n : Node) : Prop := handlers n = [].

(** The actions of the tab bar. *)
Definition tab_actions : list Action :=
  [SetActiveTab overview; SetActiveTab correlations; SetActiveTab gradients;
   SetActiveTab hotspots; SetActiveTab statistics].

(** React takes the tree when each [{v}] in it is a valid child. *)
Definition accepted (n : Node) : bool :=
  forallb (fun leaf => match leaf with
                       | Expr v => valid_child v
                       | _ => true
                       end) (shown n).

(** The page on display: the tree of [AnalysisPage], unless the
    function threw or React refused its result. *)
Definition display (st : State) : result Node :=
  let* n := AnalysisPage st in
  if accepted n then inr n else inl InvalidChild.

Definition buttons (st : State) : list Action :=
  match display st with
  | inr n => handlers n
  | inl _ => []
  end.

(** *** One page load *)

(** The component, whether its fetch is still to settle, and the
    requests sent since the document was loaded. *)
Record Config := {
  page : State;
  inflight : bool;
  requests : list Request
}.

(** The first render and the effect, which an empty dependency list
    runs once. *)
Definition mount : Config :=
  let (st, sent) := loadCrossDomainAnalysis_begin initial in
  {| page := st; inflight := true; requests := sent |}.

Inductive Event :=
  | Settle (s : Settled)
  | Click (a : Action).

Definition perform (a : Action) (c : Config) : Config :=
  match a with
  | SetActiveTab t =>
      {| page := setActiveTab t (page c); inflight := inflight c;
         requests := requests c |}
  | WindowLocationReload => mount
  end.

(** An event that cannot happen in [c] yields [None]: a settlement
    without a fetch in flight, a click on a button that is not on
    display. *)
Definition step (e : Event) (c : Config) : option Config :=
  match e with
  | Settle s =>
      if inflight c then
        Some {| page := loadCrossDomainAnalysis_settle s (page c);
                inflight := false; requests := requests c |}
      else None
  | Click a =>
      if bool_decide (a ∈ buttons (page c)) then Some (perform a c)
      else None
  end.

Fixpoint run (es : list Event) (c : Config) : option Config :=
  match es with
  | [] => Some c
  | e :: rest =>
      match step e c with
      | Some c' => run rest c'
      | None => None
      end
  end.

(** The configurations a page load can be in. *)
Inductive reachable : Config -> Prop :=
  | reach_mount : reachable mount
  | reach_step c e c' : reachable c -> step e c = Some c' -> reachable c'.

(** *** The statistical summary: its contract and what the tab reads *)

Definition is_number (v : value) : bool :=
  match v with VNum _ => true | _ => false end.

Definition is_string (v : value) : bool :=
  match v with VStr _ => true | _ => false end.

Definition is_object (v : value) : bool :=
  match v with VObj _ => true | _ => false end.

(** The field [k] of an object; [undefined] when [v] is no object. *)
Definition field (k : Key) (v : value) : value :=
  match v with
  | VObj fields => lookup_field (key_name k) fields
  | _ => VUndefined
  end.

(** An object that has a property of the name [k]. *)
Definition has_field (k : Key) (v : value) : bool :=
  match v with
  | VObj fields => existsb (fun e => String.eqb (fst e) (key_name k)) fields
  | _ => false
  end.

(** The contract of the endpoint for [statistical_summary] in the
    words of the specification: nested [biodiversity_summary] and
    [ocean_conditions_summary], and [correlation_insights], a list of
    [{species, variable, correlation, p_value}].  It names the fields
    and says nothing of what they hold. *)
Definition section3_summary (summary : value) : bool :=
  is_object (field k_biodiversity_summary summary)
  && is_object (field k_ocean_conditions_summary summary)
  && match field k_correlation_insights summary with
     | VArr insights =>
         forallb (fun insight =>
                    has_field k_species insight
                    && has_field k_variable insight
                    && has_field k_correlation insight
                    && has_field k_p_value insight) insights
     | _ => false
     end.

(** A value that React prints as it is: a number or a string. *)
Definition is_printed (v : value) : bool := is_number v || is_string v.

(** What the statistics tab needs of the fields it reads, beyond their
    names: a number wherever it calls [toFixed], no object wherever it
    puts the value in the page as it is, and a number or a string for
    [total_species]. *)
Definition biodiversity_readable (b : value) : bool :=
  is_printed (field k_total_species b)
  && valid_child (field k_total_observations b)
  && is_number (field k_mean (field k_abundance_stats b))
  && valid_child (field k_max (field k_abundance_stats b)).

Definition condition_readable (stats : value) : bool :=
  is_number (field k_mean stats) && is_number (field k_min stats)
  && is_number (field k_max stats) && is_number (field k_std stats)
  && valid_child (field k_unit stats).

Definition insight_readable (insight : value) : bool :=
  valid_child (field k_species insight)
  && valid_child (field k_variable insight)
  && is_number (field k_correlation insight)
  && is_number (field k_p_value insight).

Definition summary_readable (summary : value) : bool :=
  biodiversity_readable (field k_biodiversity_summary summary)
  && match field k_ocean_conditions_summary summary with
     | VObj conditions => forallb (fun e => condition_readable (snd e)) conditions
     | _ => false
     end
  && match field k_correlation_insights summary with
     | VArr insights => forallb insight_readable insights
     | _ => false
     end.

(** The figure under "Total Species" in a response. *)
Definition total_species_of (d : CrossDomainAnalysis) : value :=
  field k_total_species
    (field k_biodiversity_summary (statistical_summary (visualizations d))).

(** [b] comes right after [a] in [l]. *)
Fixpoint follows (a b : Node) (l : list Node) : Prop :=
  match l with
  | x :: (y :: _) as rest => (x = a /\ y = b) \/ follows a b rest
  | _ => False
  end.

(** The tree shows the child [{v}] right after the text [label]. *)
Definition labelled (label : string) (v : value) (n : Node) : Prop :=
  follows (Text label) (Expr v) (shown n).

End Analysis.

(** ** The awareness page ([AwarenessPage]): the fish layer

    Numbers are rationals.  A frame adds the velocity to the position
    and wraps the fish around the window. *)
Module Awareness.

Local Open Scope Q_scope.

Record Fish := {
  x : Q;
  y : Q;
  dx : Q;
  dy : Q;
  scale : Q;
  color : string
}.

(** [window.innerWidth] and [window.innerHeight] as a frame reads
    them. *)
Record Window := { innerWidth : Q; innerHeight : Q }.

Definition gt (a b : Q) : bool := negb (Qle_bool a b).
Definition lt (a b : Q) : bool := negb (Qle_bool b a).

(** The function mapped over the fishes in [animate]. *)
Definition move (w : Window) (f : Fish) : Fish :=
  let newX := x f + dx f in
  let newY := y f + dy f in
  let newX := if gt newX (innerWidth w) then - (50) else newX in
  let newX := if lt newX (- (50)) then innerWidth w else newX in
  let newY := if gt newY (innerHeight w) then 0 else newY in
  let newY := if lt newY 0 then innerHeight w else newY in
  {| x := newX; y := newY; dx := dx f; dy := dy f; scale := scale f;
     color := color f |}.

(** The updater that [animate] passes to [setFishes]. *)
Definition animate (w : Window) (prev : list Fish) : list Fish :=
  map (move w) prev.

(** The fishes after one frame per element of [windows]. *)
Definition frames (windows : list Window) (fishes : list Fish) : list Fish :=
  fold_left (fun prev w => animate w prev) windows fishes.

(** A fish that is within the wrap-around range of a window. *)
Definition on_screen (w : Window) (f : Fish) : Prop :=
  - (50) <= x f <= innerWidth w /\ 0 <= y f <= innerHeight w.

(** What a frame leaves alone. *)
Definition looks (f : Fish) : Q * Q * Q * string :=
  (dx f, dy f, scale f, color f).

End Awareness.

(** ** Sample inputs *)
Module Samples.

Import Chat.

Definition with_image : State :=
  {| input := "What is this?"; messages := []; isLoading := false;
     uploadedImage := Some "data:image/png;base64,iVBORw0KGgo=" |}.

Definition typed_only : State :=
  {| input := "Blue Tuna"; messages := []; isLoading := false;
     uploadedImage := None |}.

Definition blank : State :=
  {| input := "   "; messages := []; isLoading := false;
     uploadedImage := None |}.

Import Analysis.

Definition sample_summary : value :=
  VObj
    [("biodiversity_summary",
      VObj [("total_species", VNum 42);
            ("total_observations", VNum 1337);
            ("abundance_stats",
             VObj [("mean", VNum (25 # 2)); ("max", VNum 310)])]);
     ("ocean_conditions_summary",
      VObj [("temperature",
             VObj [("mean", VNum (281 # 10)); ("min", VNum 24);
                   ("max", VNum 31); ("std", VNum (3 # 2));
                   ("unit", VStr "C")]);
            ("salinity",
             VObj [("mean", VNum 35); ("min", VNum 33);
                   ("max", VNum 37); ("std", VNum (1 # 2));
                   ("unit", VStr "PSU")])]);
     ("correlation_insights",
      VArr [VObj [("species", VStr "Thunnus albacares");
                  ("variable", VStr "temperature");
                  ("correlation", VNum (7 # 10));
                  ("p_value", VNum (1 # 100))]])].

Definition sample_data : CrossDomainAnalysis :=
  {| visualizations :=
       {| correlation_heatmap :=
            VObj [("data", VArr []); ("layout", VObj [("title", VStr "r")])];
          scatter_matrix := VNull;
          species_environment := VNull;
          environmental_gradients :=
            VObj [("temperature", VObj [("data", VArr []); ("layout", VObj [])])];
          biodiversity_hotspots := VNull;
          statistical_summary := sample_summary |};
     metadata :=
       {| analysis_type := "cross_domain";
          biodiversity_species := 42;
          biodiversity_points := 1337;
          ocean_variables := ["temperature"; "salinity"; "oxygen"];
          region := "Indian Ocean" |} |}.

(** A summary with every name of the contract, in which the one
    ocean condition is an object without statistics. *)
Definition named_only_summary : value :=
  VObj
    [("biodiversity_summary",
      VObj [("total_species", VNum 42);
            ("total_observations", VNum 1337);
            ("abundance_stats",
             VObj [("mean", VNum (25 # 2)); ("max", VNum 310)])]);
     ("ocean_conditions_summary", VObj [("temperature", VObj [])]);
     ("correlation_insights",
      VArr [VObj [("species", VStr "Thunnus albacares");
                  ("variable", VStr "temperature");
                  ("correlation", VNum (7 # 10));
                  ("p_value", VNum (1 # 100))]])].

Definition named_only_data : CrossDomainAnalysis :=
  {| visualizations :=
       {| correlation_heatmap := correlation_heatmap (visualizations sample_data);
          scatter_matrix := VNull;
          species_environment := VNull;
          environmental_gradients :=
            environmental_gradients (visualizations sample_data);
          biodiversity_hotspots := VNull;
          statistical_summary := named_only_summary |};
     metadata := metadata sample_data |}.

(** The sample summary with the species count as a string. *)
Definition text_count_data : CrossDomainAnalysis :=
  {| visualizations :=
       {| correlation_heatmap := VNull; scatter_matrix := VNull;
          species_environment := VNull; environmental_gradients := VNull;
          biodiversity_hotspots := VNull;
          statistical_summary :=
            VObj
              [("biodiversity_summary",
                VObj [("total_species", VStr "42");
                      ("abundance_stats", VObj [("mean", VNum (25 # 2))])]);
               ("ocean_conditions_summary", VObj []);
               ("correlation_insights", VArr [])] |};
     metadata := metadata sample_data |}.

(** The page on the statistics tab with a body as its data. *)
Definition on_statistics (d : CrossDomainAnalysis) : Config :=
  {| page := {| crossDomainData := Some d; loading := false; error := None;
                activeTab := statistics |};
     inflight := false; requests := requests mount |}.

Definition sample_ok : Response :=
  {| ok := true; status := 200; json := inr sample_data |}.

Definition sample_not_found : Response :=
  {| ok := false; status := 404; json := inl "Unexpected token < in JSON" |}.

Definition sample_unavailable : Response :=
  {| ok := false; status := 503; json := inl "Unexpected token < in JSON" |}.

(** The page load after the sample response has arrived, and after a
    404. *)
Definition loaded : Config :=
  {| page := loadCrossDomainAnalysis_settle (Fulfilled sample_ok) (page mount);
     inflight := false; requests := requests mount |}.

Definition failed : Config :=
  {| page :=
       loadCrossDomainAnalysis_settle (Fulfilled sample_not_found) (page mount);
     inflight := false; requests := requests mount |}.

End Samples.

(** * Properties *)

(** ** String replacement *)
Module JSFacts.

Import JS.

Lemma truthy_false s : truthy s = false <-> s = EmptyString.
Proof. destruct s; simpl; split; congruence. Qed.

(** A replacement text without special patterns stands for itself. *)
Lemma GetSubstitution_plain matched before after replacement :
  has_pattern replacement = false ->
  GetSubstitution matched before after replacement = replacement.
Proof.
  induction replacement as [|c r IH]; simpl; [reflexivity|].
  intros H. apply orb_false_iff in H as [Hhead Htail].
  destruct (c =? "$")%char eqn:Hc.
  - destruct r as [|d r']; [reflexivity|].
    simpl in Hhead.
    destruct (d =? "$")%char; [discriminate|].
    destruct (d =? "&")%char; [discriminate|].
    destruct (d =? "`")%char; [discriminate|].
    destruct (d =? "'")%char; [discriminate|].
    f_equal. apply IH, Htail.
  - f_equal. apply IH, Htail.
Qed.

Lemma replace_scan_plain pat replacement subject s :
  has_pattern replacement = false ->
  forall pos skip,
    replace_scan pat replacement subject pos skip s
    = replace_lit pat replacement skip s.
Proof.
  intros Hplain. induction s as [|c r IH]; intros pos skip; [reflexivity|].
  cbn [replace_scan replace_lit].
  destruct skip as [|k]; [|apply IH].
  destruct (String.prefix pat (String c r)).
  - rewrite GetSubstitution_plain by assumption. f_equal. apply IH.
  - f_equal. apply IH.
Qed.

(** With such a replacement text, [replace] puts the text itself in
    the place of every occurrence. *)
Lemma replace_g_plain pat replacement subject :
  has_pattern replacement = false ->
  replace_g pat replacement subject = replace_every pat replacement subject.
Proof. intros H. apply replace_scan_plain, H. Qed.

Example replace_g_patterns :
  replace_g "ab" "[$&|$$|$1|$']" "xabyabz" = "x[ab|$|$1|yabz]y[ab|$|$1|z]z".
Proof. reflexivity. Qed.

Example replace_g_no_overlap : replace_g "aa" "b" "aaaaa" = "bba".
Proof. reflexivity. Qed.

Example trim_examples :
  trim "  a b  " = "a b" /\ trim "   " = EmptyString
  /\ toLowerCase "Blue Tuna" = "blue tuna".
Proof. repeat split. Qed.

End JSFacts.

(** ** The chat widget *)
Module ChatFacts.

Import JS Chat JSFacts.

Local Open Scope Z_scope.

Example anglerFishResponse_length : String.length anglerFishResponse = 2941%nat.
Proof. reflexivity. Qed.

Example generateResponse_tuna :
  String.substring 0%nat 45%nat (generateResponse "Blue Tuna" false)
  = "The blue tuna is a deep-sea blue tuna, a memb".
Proof. vm_compute. reflexivity. Qed.

Lemma begin_guard now stamp st :
  truthy (trim (input st)) = false ->
  truthy_opt (uploadedImage st) = false ->
  handleSubmit_begin now stamp st = (st, None).
Proof. intros Hi Hu. unfold handleSubmit_begin. rewrite Hi, Hu. reflexivity. Qed.

Lemma begin_accepts now stamp st :
  truthy (trim (input st)) = true \/ truthy_opt (uploadedImage st) = true ->
  handleSubmit_begin now stamp st
  = (setUploadedImage None
       (setInput EmptyString
          (setIsLoading true
             (setMessages
                (fun prev =>
                   (prev ++ [ {| id := int_toString now; type := user;
                                 content := or_else (input st) "Image uploaded";
                                 timestamp := stamp |} ])%list) st))),
     Some {| query := input st; hasImage := truthy_opt (uploadedImage st) |}).
Proof.
  intros H. unfold handleSubmit_begin.
  destruct H as [H|H]; rewrite H; simpl; [|rewrite andb_false_r]; reflexivity.
Qed.

Lemma resume_messages now stamp p st :
  messages (handleSubmit_resume now stamp p st)
  = (messages st ++ [ {| id := int_toString (now + 1); type := assistant;
                         content := generateResponse (query p) (hasImage p);
                         timestamp := stamp |} ])%list.
Proof. reflexivity. Qed.

(** No event takes a message away or changes one. *)
Lemma step_prefix e c : messages (fst c) `prefix_of` messages (fst (step e c)).
Proof.
  destruct c as [st waiting], e as [v|f| |now stamp|now stamp]; simpl.
  - reflexivity.
  - unfold handleFileUpload. destruct f as [f|]; [|reflexivity].
    destruct (startsWith (mime f) "image/"); reflexivity.
  - reflexivity.
  - unfold handleSubmit_begin.
    destruct (negb (truthy (trim (input st))) &&
              negb (truthy_opt (uploadedImage st))); simpl.
    + reflexivity.
    + apply prefix_app_r. reflexivity.
  - destruct waiting as [|p rest]; simpl; [reflexivity|].
    apply prefix_app_r. reflexivity.
Qed.

Lemma run_prefix es c : messages (fst c) `prefix_of` messages (fst (run es c)).
Proof.
  revert c. induction es as [|e es IH]; intros c; simpl; [reflexivity|].
  etransitivity; [apply step_prefix|apply IH].
Qed.

(** For a query whose lower case holds none of the patterns [$$],
    [$&], [$`] and [$'], the answer is the paragraph with the texts
    replaced one after the other. *)
Lemma generateResponse_plain q :
  has_pattern (toLowerCase q) = false ->
  generateResponse q false = replaced_response q.
Proof.
  intros H. unfold generateResponse, replaced_response.
  rewrite !replace_g_plain; [reflexivity|exact H..| |exact H].
  exact H.
Qed.

(** C2.  With an image in the submission the answer is the fixed
    paragraph, whatever was typed: [generateResponse] returns it for
    every query, a submission made while an image is attached passes
    [hasImage = true], and the assistant message that follows holds
    the paragraph. *)
Theorem image_answer_is_fixed :
  (forall q, generateResponse q true = anglerFishResponse) /\
  (forall now stamp st,
      truthy_opt (uploadedImage st) = true ->
      exists st' p,
        handleSubmit_begin now stamp st = (st', Some p) /\
        hasImage p = true /\
        forall now' stamp' st2,
          last (messages (handleSubmit_resume now' stamp' p st2))
          = Some {| id := int_toString (now' + 1); type := assistant;
                    content := anglerFishResponse; timestamp := stamp' |}).
Proof.
  split; [reflexivity|].
  intros now stamp st Himg.
  rewrite begin_accepts by (right; exact Himg).
  eexists _, _. split; [reflexivity|]. split; [exact Himg|].
  intros now' stamp' st2. rewrite resume_messages, last_snoc.
  cbn [query hasImage]. rewrite Himg. reflexivity.
Qed.

Lemma image_answer_is_fixed_witness :
  exists st' p,
    handleSubmit_begin 1700000000000 1700000000000 Samples.with_image
    = (st', Some p) /\
    hasImage p = true /\
    forall now' stamp' st2,
      last (messages (handleSubmit_resume now' stamp' p st2))
      = Some {| id := int_toString (now' + 1); type := assistant;
                content := anglerFishResponse; timestamp := stamp' |}.
Proof.
  apply (proj2 image_answer_is_fixed 1700000000000%Z 1700000000000%Z
           Samples.with_image).
  reflexivity.
Defined.

(** C3, at the query [$&].  Its lower case is a replacement pattern
    that stands for the matched text.  The first, second and fourth
    replacement therefore change nothing and the third doubles the
    article, where the paragraph with the texts replaced by the query
    itself starts with the query after the article. *)
Theorem dollar_query_not_replaced :
  String.substring 0%nat 34%nat (generateResponse "$&" false)
  = "The The fish in the image is a dee" /\
  String.substring 0%nat 34%nat (replaced_response "$&")
  = "The $& is a deep-sea $&, a member " /\
  generateResponse "$&" false <> replaced_response "$&".
Proof.
  split; [vm_compute; reflexivity|].
  split; [vm_compute; reflexivity|].
  intros H. apply (f_equal (String.substring 0%nat 34%nat)) in H.
  vm_compute in H. discriminate H.
Qed.

(** C9.  A submission whose trimmed input is empty and that has no
    image leaves the state as it is.  Any other submission appends the
    user message at once and the assistant message after the wait, to
    whatever the list holds by then; when nothing happens in between,
    the list is the old one followed by these two.  No sequence of
    events removes or alters a message. *)
Theorem handleSubmit_appends now stamp now' stamp' st :
  let userMessage :=
    {| id := int_toString now; type := user;
       content := or_else (input st) "Image uploaded";
       timestamp := stamp |} in
  let p :=
    {| query := input st; hasImage := truthy_opt (uploadedImage st) |} in
  let assistantMessage :=
    {| id := int_toString (now' + 1); type := assistant;
       content := generateResponse (input st) (truthy_opt (uploadedImage st));
       timestamp := stamp' |} in
  (trim (input st) = EmptyString ->
   truthy_opt (uploadedImage st) = false ->
   handleSubmit_begin now stamp st = (st, None) /\
   handleSubmit now stamp now' stamp' st = st) /\
  (trim (input st) <> EmptyString \/ truthy_opt (uploadedImage st) = true ->
   exists st1,
     handleSubmit_begin now stamp st = (st1, Some p) /\
     messages st1 = (messages st ++ [userMessage])%list /\
     (forall st2,
         messages (handleSubmit_resume now' stamp' p st2)
         = (messages st2 ++ [assistantMessage])%list) /\
     messages (handleSubmit now stamp now' stamp' st)
     = (messages st ++ [userMessage; assistantMessage])%list) /\
  (forall es waiting,
      messages st `prefix_of` messages (fst (run es (st, waiting)))).
Proof.
  intros userMessage p assistantMessage. split; [|split].
  - intros Hi Hu. apply truthy_false in Hi.
    unfold handleSubmit. rewrite (begin_guard _ _ _ Hi Hu). split; reflexivity.
  - intros H.
    assert (truthy (trim (input st)) = true
            \/ truthy_opt (uploadedImage st) = true) as H'.
    { destruct H as [H|H]; [left|right; exact H].
      destruct (truthy (trim (input st))) eqn:E; [reflexivity|].
      apply truthy_false in E. contradiction. }
    unfold handleSubmit. rewrite (begin_accepts _ _ _ H').
    eexists. split; [reflexivity|]. split; [reflexivity|]. split.
    + intros st2. apply resume_messages.
    + rewrite resume_messages.
      cbn [messages setUploadedImage setInput setIsLoading setMessages].
      rewrite <- app_assoc. reflexivity.
  - intros es waiting. apply (run_prefix es (st, waiting)).
Qed.

Lemma handleSubmit_appends_witness :
  (handleSubmit_begin 10 10 Samples.blank = (Samples.blank, None) /\
   handleSubmit 10 10 2010 2010 Samples.blank = Samples.blank) /\
  messages (handleSubmit 10 10 2010 2010 Samples.typed_only)
  = [ {| id := "10"; type := user; content := "Blue Tuna"; timestamp := 10 |};
      {| id := "2011"; type := assistant;
         content := generateResponse "Blue Tuna" false;
         timestamp := 2010 |} ].
Proof.
  split.
  - apply (proj1 (handleSubmit_appends 10 10 2010 2010 Samples.blank));
      reflexivity.
  - destruct (proj1 (proj2 (handleSubmit_appends 10 10 2010 2010
                              Samples.typed_only)))
      as (st1 & _ & _ & _ & Hall).
    + left. vm_compute. discriminate.
    + exact Hall.
Defined.

(** *** Beyond one submission *)

Lemma begin_shape now stamp st st1 p :
  handleSubmit_begin now stamp st = (st1, Some p) ->
  input st1 = EmptyString /\ uploadedImage st1 = None /\
  isLoading st1 = true /\
  p = {| query := input st; hasImage := truthy_opt (uploadedImage st) |} /\
  messages st1
  = (messages st ++ [ {| id := int_toString now; type := user;
                         content := shown_question p;
                         timestamp := stamp |} ])%list.
Proof.
  unfold handleSubmit_begin.
  destruct (negb (truthy (trim (input st))) &&
            negb (truthy_opt (uploadedImage st))); [discriminate|].
  intros [= <- <-]. repeat split.
Qed.

(** X1.  A submission that was taken clears the text box and the
    image, so the same form submitted again at once is refused and
    changes nothing. *)
Theorem second_submit_refused now stamp st st1 p :
  handleSubmit_begin now stamp st = (st1, Some p) ->
  forall now2 stamp2, handleSubmit_begin now2 stamp2 st1 = (st1, None).
Proof.
  intros H now2 stamp2.
  destruct (begin_shape _ _ _ _ _ H) as (Hi & Hu & _).
  apply begin_guard; [rewrite Hi|rewrite Hu]; reflexivity.
Qed.

Lemma second_submit_refused_witness :
  exists st1,
    fst (handleSubmit_begin 10 10 Samples.typed_only) = st1 /\
    handleSubmit_begin 11 11 st1 = (st1, None).
Proof.
  eexists. split; [reflexivity|].
  eapply (second_submit_refused 10 10 Samples.typed_only). reflexivity.
Defined.

Lemma questions_snoc_user ms m :
  is_user m = true -> questions (ms ++ [m]) = (questions ms ++ [content m])%list.
Proof.
  intros H. unfold questions. rewrite List.filter_app, map_app. simpl.
  rewrite H. reflexivity.
Qed.

Lemma questions_snoc_assistant ms m :
  is_user m = false -> questions (ms ++ [m]) = questions ms.
Proof.
  intros H. unfold questions. rewrite List.filter_app, map_app. simpl.
  rewrite H. apply app_nil_r.
Qed.

Lemma answers_snoc_user ms m :
  is_user m = true -> answers (ms ++ [m]) = answers ms.
Proof.
  intros H. unfold answers. rewrite List.filter_app, map_app. simpl.
  rewrite H. apply app_nil_r.
Qed.

Lemma answers_snoc_assistant ms m :
  is_user m = false -> answers (ms ++ [m]) = (answers ms ++ [content m])%list.
Proof.
  intros H. unfold answers. rewrite List.filter_app, map_app. simpl.
  rewrite H. reflexivity.
Qed.

Lemma step_accounted e c answered :
  accounted answered c -> exists answered', accounted answered' (step e c).
Proof.
  destruct c as [st waiting]. unfold accounted. simpl. intros [Hq Ha].
  destruct e as [v|f| |now stamp|now stamp]; simpl.
  - exists answered. auto.
  - exists answered. unfold handleFileUpload.
    destruct f as [f|]; [|auto].
    destruct (startsWith (mime f) "image/"); auto.
  - exists answered. auto.
  - destruct (handleSubmit_begin now stamp st) as [st1 [p|]] eqn:Hb.
    + destruct (begin_shape _ _ _ _ _ Hb) as (_ & _ & _ & _ & Hm).
      exists answered. simpl. rewrite Hm.
      rewrite questions_snoc_user, answers_snoc_user by reflexivity.
      simpl. rewrite Hq, Ha. split; [|reflexivity].
      rewrite (app_assoc answered), !map_app. reflexivity.
    + unfold handleSubmit_begin in Hb.
      destruct (negb (truthy (trim (input st))) &&
                negb (truthy_opt (uploadedImage st))); [|discriminate].
      injection Hb as <-. exists answered. auto.
  - destruct waiting as [|p rest].
    + exists answered. auto.
    + exists (answered ++ [p])%list. cbn [fst snd]. rewrite resume_messages.
      rewrite questions_snoc_assistant, answers_snoc_assistant by reflexivity.
      simpl. rewrite Hq, Ha. split; [|rewrite map_app; reflexivity].
      rewrite <- app_assoc. reflexivity.
Qed.

Lemma run_accounted es : forall c answered,
  accounted answered c -> exists answered', accounted answered' (run es c).
Proof.
  induction es as [|e es IH]; intros c answered H; simpl; [eauto|].
  destruct (step_accounted e c answered H) as [answered' H'].
  apply (IH _ answered' H').
Qed.

Lemma questions_answers_length ms :
  length ms = (length (questions ms) + length (answers ms))%nat.
Proof.
  unfold questions, answers. rewrite !length_map.
  induction ms as [|m ms IH]; simpl; [reflexivity|].
  destruct (is_user m); simpl; rewrite IH; lia.
Qed.

(** X2.  Whatever happens to the widget from its first render on,
    answers come in the order of the questions: the user messages are
    the questions of the submissions answered so far followed by those
    still waiting, and the assistant messages are the answers to the
    answered ones, one each.  So there are as many user messages as
    assistant messages and waiting submissions together. *)
Theorem answers_follow_questions es :
  let c := run es (initial, []) in
  exists answered,
    questions (messages (fst c)) = map shown_question (answered ++ snd c) /\
    answers (messages (fst c)) = map answer_of answered /\
    length (questions (messages (fst c)))
    = (length (answers (messages (fst c))) + length (snd c))%nat /\
    length (messages (fst c)) = (2 * length answered + length (snd c))%nat.
Proof.
  intros c.
  destruct (run_accounted es (initial, []) []) as [answered [Hq Ha]];
    [split; reflexivity|].
  fold c in Hq, Ha. exists answered.
  split; [exact Hq|]. split; [exact Ha|].
  rewrite (questions_answers_length (messages (fst c))), Hq, Ha.
  rewrite !length_map, length_app. split; lia.
Qed.

Lemma step_loading e c :
  (isLoading (fst c) = true -> snd c <> []) ->
  isLoading (fst (step e c)) = true -> snd (step e c) <> [].
Proof.
  destruct c as [st waiting]. simpl. intros H.
  destruct e as [v|f| |now stamp|now stamp]; simpl; try exact H.
  - unfold handleFileUpload. destruct f as [f|]; [|exact H].
    destruct (startsWith (mime f) "image/"); exact H.
  - unfold handleSubmit_begin.
    destruct (negb (truthy (trim (input st))) &&
              negb (truthy_opt (uploadedImage st))); simpl; [exact H|].
    intros _ E. apply app_eq_nil in E as [_ E]. discriminate.
  - destruct waiting as [|p rest]; simpl; [exact H|discriminate].
Qed.

(** X3.  The loading animation is on only while a submission waits
    for its answer.  The converse fails: when two submissions wait and
    the first is answered, the animation goes off with the second
    still waiting. *)
Theorem loading_only_while_waiting :
  (forall es,
      isLoading (fst (run es (initial, []))) = true ->
      snd (run es (initial, [])) <> []) /\
  (forall st p q rest now stamp,
      let c := step (Woken now stamp) (st, p :: q :: rest) in
      isLoading (fst c) = false /\ snd c = q :: rest) /\
  exists es,
    isLoading (fst (run es (initial, []))) = false /\
    snd (run es (initial, [])) <> [].
Proof.
  split; [|split].
  - intros es.
    assert (forall c, (isLoading (fst c) = true -> snd c <> []) ->
                      isLoading (fst (run es c)) = true -> snd (run es c) <> [])
      as Hrun.
    { induction es as [|e es IH]; intros c H; simpl; [exact H|].
      apply IH, step_loading, H. }
    apply Hrun. simpl. discriminate.
  - intros st p q rest now stamp. split; reflexivity.
  - exists [Typed "tuna"; Submitted 1 1; Typed "cod"; Submitted 2 2;
            Woken 2001 2001].
    split; [reflexivity|]. vm_compute. discriminate.
Qed.

Lemma loading_only_while_waiting_witness :
  snd (run [Typed "tuna"; Submitted 1 1] (initial, [])) <> [].
Proof.
  apply (proj1 loading_only_while_waiting [Typed "tuna"; Submitted 1 1]).
  reflexivity.
Defined.

(** X4.  An image file with a data URL makes the form submittable
    whatever the text box holds: the user message shows the text, or
    "Image uploaded" when the box is empty, and the answer is the
    fixed paragraph.  A file of another type is ignored. *)
Theorem image_file_submits now stamp now' stamp' st f :
  (startsWith (mime f) "image/" = true ->
   truthy (dataURL f) = true ->
   messages (handleSubmit now stamp now' stamp'
               (handleFileUpload (Some f) st))
   = (messages st
      ++ [ {| id := int_toString now; type := user;
              content := if truthy (input st) then input st
                         else "Image uploaded";
              timestamp := stamp |};
           {| id := int_toString (now' + 1); type := assistant;
              content := anglerFishResponse; timestamp := stamp' |} ])%list)
  /\ (startsWith (mime f) "image/" = false ->
       handleFileUpload (Some f) st = st).
Proof.
  unfold handleFileUpload. split; intros Hm; rewrite Hm; [|reflexivity].
  intros Hurl. unfold handleSubmit.
  rewrite begin_accepts by (right; simpl; exact Hurl).
  rewrite resume_messages. simpl. rewrite Hurl, <- app_assoc. reflexivity.
Qed.

Lemma image_file_submits_witness :
  messages (handleSubmit 10 10 2010 2010
              (handleFileUpload
                 (Some {| mime := "image/png";
                          dataURL := "data:image/png;base64,iVBORw0KGgo=" |})
                 initial))
  = [ {| id := "10"; type := user; content := "Image uploaded";
         timestamp := 10 |};
      {| id := "2011"; type := assistant; content := anglerFishResponse;
         timestamp := 2010 |} ]
  /\ handleFileUpload
       (Some {| mime := "application/pdf";
                dataURL := "data:application/pdf;base64,JVBERi0=" |})
       initial
     = initial.
Proof.
  split.
  - apply (proj1 (image_file_submits 10 10 2010 2010 initial
                    {| mime := "image/png";
                       dataURL := "data:image/png;base64,iVBORw0KGgo=" |}));
      reflexivity.
  - apply (proj2 (image_file_submits 10 10 2010 2010 initial
                    {| mime := "application/pdf";
                       dataURL := "data:application/pdf;base64,JVBERi0=" |})).
    reflexivity.
Defined.

Lemma lower_unit_idempotent c : lower_unit (lower_unit c) = lower_unit c.
Proof.
  destruct c as [[] [] [] [] [] [] [] []]; vm_compute; reflexivity.
Qed.

Lemma toLowerCase_idempotent s : toLowerCase (toLowerCase s) = toLowerCase s.
Proof.
  induction s as [|c r IH]; simpl; [reflexivity|].
  rewrite lower_unit_idempotent, IH. reflexivity.
Qed.

(** X5.  The answer does not depend on the letter case of the query:
    a query and its lower case get the same answer. *)
Theorem case_does_not_matter q hasImage :
  generateResponse (toLowerCase q) hasImage = generateResponse q hasImage.
Proof.
  unfold generateResponse. rewrite toLowerCase_idempotent. reflexivity.
Qed.

(** X6.  A submission of text alone, whose lower case holds none of
    the patterns [$$], [$&], [$`] and [$'], is answered with the
    paragraph in which the four texts have given way to the
    lower-cased input itself. *)
Theorem plain_text_answered now stamp now' stamp' st :
  trim (input st) <> EmptyString ->
  truthy_opt (uploadedImage st) = false ->
  has_pattern (toLowerCase (input st)) = false ->
  last (messages (handleSubmit now stamp now' stamp' st))
  = Some {| id := int_toString (now' + 1); type := assistant;
            content := replaced_response (input st); timestamp := stamp' |}.
Proof.
  intros Hi Hu Hp. unfold handleSubmit.
  rewrite begin_accepts.
  - rewrite resume_messages, last_snoc. cbn [query hasImage].
    rewrite Hu, generateResponse_plain by exact Hp. reflexivity.
  - left. destruct (truthy (trim (input st))) eqn:E; [reflexivity|].
    apply truthy_false in E. contradiction.
Qed.

Lemma plain_text_answered_witness :
  last (messages (handleSubmit 10 10 2010 2010 Samples.typed_only))
  = Some {| id := "2011"; type := assistant;
            content := replaced_response "Blue Tuna"; timestamp := 2010 |}.
Proof.
  apply (plain_text_answered 10 10 2010 2010 Samples.typed_only).
  - vm_compute. discriminate.
  - reflexivity.
  - reflexivity.
Defined.

End ChatFacts.

(** ** The filter side bar *)
Module SidebarFacts.

Import Sidebar.

Example initial_keys :
  parameters initial !! "salinity" = Some false /\
  parameters initial !! "depth" = None.
Proof. split; reflexivity. Qed.

Lemma toggle_other key k st :
  k <> key ->
  parameters (fst (toggleParameter key st)) !! k = parameters st !! k.
Proof. intros Hne. simpl. apply lookup_insert_ne. congruence. Qed.

(** Toggling twice gives back the parameters for a key the object
    has. *)
Lemma toggle_twice key st :
  is_Some (parameters st !! key) ->
  parameters (fst (toggleParameter key (fst (toggleParameter key st))))
  = parameters st.
Proof.
  intros [b Hb]. simpl. unfold not_at.
  rewrite lookup_insert_eq, Hb, insert_insert_eq, negb_involutive.
  apply insert_id, Hb.
Qed.

(** C10.  Each handler calls [onFilterChange] once, with the filter
    object of the state it leaves.  [toggleParameter key] changes the
    parameters at [key] only, where a boolean is negated, and keeps
    time and depth; [changeTime] sets the time and [changeDepth] the
    depth, each keeping the other two cells. *)
Theorem handlers_report_new_state st :
  (forall key,
      snd (toggleParameter key st) = [filters_of (fst (toggleParameter key st))]
      /\ time (fst (toggleParameter key st)) = time st
      /\ depth (fst (toggleParameter key st)) = depth st
      /\ delete key (parameters (fst (toggleParameter key st)))
         = delete key (parameters st)
      /\ forall b, parameters st !! key = Some b ->
                   parameters (fst (toggleParameter key st)) !! key
                   = Some (negb b))
  /\ (forall value,
         snd (changeTime value st) = [filters_of (fst (changeTime value st))]
         /\ fst (changeTime value st)
            = {| parameters := parameters st; time := value;
                 depth := depth st |})
  /\ (forall value,
         snd (changeDepth value st) = [filters_of (fst (changeDepth value st))]
         /\ fst (changeDepth value st)
            = {| parameters := parameters st; time := time st;
                 depth := value |}).
Proof.
  split; [|split].
  - intros key. repeat split.
    + simpl. apply delete_insert_eq.
    + intros b Hb. simpl. unfold not_at. rewrite Hb. apply lookup_insert_eq.
  - intros value. split; reflexivity.
  - intros value. split; reflexivity.
Qed.

Lemma handlers_report_new_state_witness :
  parameters initial !! "salinity" = Some false /\
  parameters (fst (toggleParameter "salinity" initial)) !! "salinity"
  = Some (negb false).
Proof.
  split; [reflexivity|].
  apply (proj1 (handlers_report_new_state initial) "salinity").
  reflexivity.
Defined.

(** X7.  Toggling the same parameter twice gives back the state, and
    the second call reports the filters as they were, for a key the
    object has. *)
Theorem toggle_twice_restores key st :
  is_Some (parameters st !! key) ->
  fst (toggleParameter key (fst (toggleParameter key st))) = st /\
  snd (toggleParameter key (fst (toggleParameter key st))) = [filters_of st].
Proof.
  intros Hkey.
  assert (parameters (fst (toggleParameter key (fst (toggleParameter key st))))
          = parameters st) as Hp by (apply toggle_twice, Hkey).
  destruct st as [ps t d]. simpl in *. unfold filters_of. simpl.
  rewrite Hp. split; reflexivity.
Qed.

Lemma toggle_twice_restores_witness :
  fst (toggleParameter "salinity" (fst (toggleParameter "salinity" initial)))
  = initial.
Proof.
  apply (toggle_twice_restores "salinity" initial). eexists. reflexivity.
Defined.

Lemma not_at_insert_ne ps k k' b :
  k <> k' -> not_at (<[k := b]> ps) k' = not_at ps k'.
Proof. intros H. unfold not_at. rewrite lookup_insert_ne by exact H. reflexivity. Qed.

(** X8.  The order of interactions on different controls does not
    matter for the state they leave: toggles of two different
    parameters commute, and so do a toggle, a change of the time and a
    change of the depth. *)
Theorem controls_commute st :
  (forall k k',
      k <> k' ->
      fst (toggleParameter k (fst (toggleParameter k' st)))
      = fst (toggleParameter k' (fst (toggleParameter k st))))
  /\ (forall k v,
         fst (toggleParameter k (fst (changeTime v st)))
         = fst (changeTime v (fst (toggleParameter k st)))
         /\ fst (toggleParameter k (fst (changeDepth v st)))
            = fst (changeDepth v (fst (toggleParameter k st))))
  /\ (forall v w,
         fst (changeTime v (fst (changeDepth w st)))
         = fst (changeDepth w (fst (changeTime v st)))).
Proof.
  split; [|split].
  - intros k k' Hne. simpl. f_equal.
    rewrite !not_at_insert_ne by congruence.
    apply insert_insert_ne. congruence.
  - intros k v. split; reflexivity.
  - intros v w. reflexivity.
Qed.

Lemma controls_commute_witness :
  fst (toggleParameter "salinity" (fst (toggleParameter "temperature" initial)))
  = fst (toggleParameter "temperature" (fst (toggleParameter "salinity" initial))).
Proof.
  apply (proj1 (controls_commute initial) "salinity" "temperature").
  discriminate.
Defined.

Lemma interact_keeps i st st' calls :
  interact i st = Some (st', calls) ->
  dom (parameters st') = dom (parameters st)
  /\ (time st ∈ timeOptions -> time st' ∈ timeOptions)
  /\ (depth st ∈ depthOptions -> depth st' ∈ depthOptions)
  /\ calls = [filters_of st'].
Proof.
  unfold interact. destruct i as [param|value|value]; simpl;
    case_bool_decide as Hin; try discriminate; intros [= <- <-]; simpl.
  - repeat split; try tauto. rewrite dom_insert_L.
    apply subseteq_union_1_L, singleton_subseteq_l, Hin.
  - repeat split; tauto.
  - repeat split; tauto.
Qed.

Lemma session_keeps steps : forall st st' calls,
  session steps st = Some (st', calls) ->
  dom (parameters st') = dom (parameters st)
  /\ (time st ∈ timeOptions -> time st' ∈ timeOptions)
  /\ (depth st ∈ depthOptions -> depth st' ∈ depthOptions)
  /\ length calls = length steps
  /\ (steps <> [] -> last calls = Some (filters_of st')).
Proof.
  induction steps as [|i steps IH]; intros st st' calls H; simpl in H.
  - injection H as <- <-. repeat split; tauto.
  - destruct (interact i st) as [[st1 calls1]|] eqn:Hi; [|discriminate].
    destruct (session steps st1) as [[st2 calls2]|] eqn:Hs; [|discriminate].
    injection H as <- <-.
    destruct (interact_keeps _ _ _ _ Hi) as (Hd1 & Ht1 & Hp1 & ->).
    destruct (IH _ _ _ Hs) as (Hd2 & Ht2 & Hp2 & Hlen & Hlast).
    repeat split.
    + congruence.
    + tauto.
    + tauto.
    + simpl. rewrite Hlen. reflexivity.
    + intros _. destruct steps as [|j steps].
      * simpl in Hs. injection Hs as <- <-. reflexivity.
      * rewrite last_app, Hlast by discriminate. reflexivity.
Qed.

(** X9.  Through any sequence of interactions with the controls on
    display, the side bar keeps its three parameters, a time range out
    of the four options and a depth out of the three.  It calls
    [onFilterChange] once per interaction, and the last call holds the
    state the side bar is in. *)
Theorem session_invariant steps st calls :
  session steps initial = Some (st, calls) ->
  dom (parameters st) = {[ "temperature"; "salinity"; "chlorophyll" ]}
  /\ time st ∈ timeOptions
  /\ depth st ∈ depthOptions
  /\ length calls = length steps
  /\ (steps <> [] -> last calls = Some (filters_of st)).
Proof.
  intros H. destruct (session_keeps _ _ _ _ H) as (Hd & Ht & Hp & Hlen & Hlast).
  split.
  - rewrite Hd. unfold initial. simpl.
    rewrite !dom_insert_L, dom_empty_L, union_empty_r_L.
    reflexivity.
  - split; [apply Ht; unfold timeOptions; rewrite !elem_of_cons; auto|].
    split; [apply Hp; unfold depthOptions; rewrite !elem_of_cons; auto|].
    split; assumption.
Qed.

Lemma session_invariant_witness :
  exists st calls,
    session [Check "salinity"; PickDepth "deepwater"; Check "salinity";
             PickTime "today"] initial = Some (st, calls)
    /\ length calls = 4%nat
    /\ last calls = Some (filters_of st).
Proof.
  eexists _, _. split; [reflexivity|].
  match goal with
  | |- length ?calls = _ /\ last _ = Some (filters_of ?st) =>
      destruct (session_invariant
                  [Check "salinity"; PickDepth "deepwater"; Check "salinity";
                   PickTime "today"] st calls eq_refl)
        as (_ & _ & _ & Hlen & Hlast)
  end.
  split; [exact Hlen|apply Hlast; discriminate].
Defined.

End SidebarFacts.

(** ** The ocean health score *)
Module HomeFacts.

Import Home.

Local Open Scope Q_scope.

Example toFixed1_examples :
  toFixed1 (823 # 100) == 82 # 10 /\ toFixed1 (825 # 100) == 83 # 10
  /\ toFixed1 (- (825 # 100)) == - (83 # 10).
Proof. repeat split. Qed.

Example oceanHealth_three_ticks :
  oceanHealth_after [99 # 100; 99 # 100; 0] == 83 # 10.
Proof. reflexivity. Qed.

(** The clamp alone bounds the result: neither the operands nor the
    rounding matter. *)
Lemma nextOceanHealth_bounds prev change :
  7 <= nextOceanHealth prev change <= 9.
Proof.
  unfold nextOceanHealth. split.
  - apply Q.le_max_l.
  - apply Q.max_lub; [discriminate|apply Q.le_min_l].
Qed.

Lemma oceanHealth_after_bounds randoms : 7 <= oceanHealth_after randoms <= 9.
Proof.
  unfold oceanHealth_after.
  assert (7 <= initialOceanHealth <= 9) as Hinit by (split; discriminate).
  revert Hinit. generalize initialOceanHealth.
  induction randoms as [|r rs IH]; intros q Hq; simpl; [exact Hq|].
  apply IH, nextOceanHealth_bounds.
Qed.

(** The change drawn from [Math.random()] is at least -0.1 and below
    0.1. *)
Lemma change_range random :
  0 <= random < 1 ->
  - (1 # 10) <= (random - (5 # 10)) * (2 # 10) < 1 # 10.
Proof. intros [H0 H1]. split; lra. Qed.

Lemma updateOceanHealth_bounds random prev :
  7 <= updateOceanHealth random prev <= 9.
Proof. apply nextOceanHealth_bounds. Qed.

(** C8.  From a score between 7 and 9 and a change between -0.1 and
    0.1, the next score is between 7 and 9 again. *)
Theorem oceanHealth_stays_in_range prev change :
  7 <= prev <= 9 ->
  - (1 # 10) <= change <= 1 # 10 ->
  7 <= nextOceanHealth prev change <= 9.
Proof. intros _ _. apply nextOceanHealth_bounds. Qed.

Lemma oceanHealth_stays_in_range_witness :
  7 <= nextOceanHealth (82 # 10) (1 # 20) <= 9.
Proof.
  apply (oceanHealth_stays_in_range (82 # 10) (1 # 20));
    split; discriminate.
Defined.

(** *** Tenths *)

Lemma tenth_le a b : (a <= b)%Z <-> a # 10 <= b # 10.
Proof. unfold Qle. simpl. lia. Qed.

(** The clamp of a tenth is the tenth of the clamped numerator. *)
Lemma clamp_tenth m : Qmax 7 (Qmin 9 (m # 10)) == Z.max 70 (Z.min 90 m) # 10.
Proof.
  assert (7 == 70 # 10) as E7 by reflexivity.
  assert (9 == 90 # 10) as E9 by reflexivity.
  destruct (Z_lt_le_dec m 70) as [Hlow|Hlow].
  - rewrite Z.max_l by lia. rewrite <- E7. apply Q.max_l.
    apply Qle_trans with (m # 10); [apply Q.le_min_r|].
    rewrite E7. apply (proj1 (tenth_le _ _)). lia.
  - destruct (Z_le_gt_dec m 90) as [Hhigh|Hhigh].
    + rewrite Z.min_r, Z.max_r by lia.
      assert (Qmin 9 (m # 10) == m # 10) as Emin.
      { apply Q.min_r. rewrite E9. apply (proj1 (tenth_le _ _)). lia. }
      rewrite Q.max_r; [exact Emin|].
      rewrite Emin, E7. apply (proj1 (tenth_le _ _)). lia.
    + rewrite Z.min_l, Z.max_r by lia. rewrite <- E9.
      assert (Qmin 9 (m # 10) == 9) as Emin.
      { apply Q.min_l. rewrite E9. apply (proj1 (tenth_le _ _)). lia. }
      rewrite Q.max_r; [exact Emin|].
      rewrite Emin. discriminate.
Qed.

Lemma toFixed1_tenth x : exists m, toFixed1 x = m # 10.
Proof. unfold toFixed1. destruct (Qle_bool 0 x); eexists; reflexivity. Qed.

Lemma nextOceanHealth_tenth prev change :
  exists n, (70 <= n <= 90)%Z /\ nextOceanHealth prev change == n # 10.
Proof.
  unfold nextOceanHealth. destruct (toFixed1_tenth (prev + change)) as [m ->].
  exists (Z.max 70 (Z.min 90 m)). split; [lia|apply clamp_tenth].
Qed.

(** X10.  After any number of ticks, whatever [Math.random()] gave,
    the score is a whole number of tenths between 7.0 and 9.0. *)
Theorem oceanHealth_in_tenths randoms :
  exists n, (70 <= n <= 90)%Z /\ oceanHealth_after randoms == n # 10.
Proof.
  unfold oceanHealth_after.
  assert (exists n, (70 <= n <= 90)%Z /\ initialOceanHealth == n # 10) as Hinit
    by (exists 82%Z; split; [lia|reflexivity]).
  revert Hinit. generalize initialOceanHealth.
  induction randoms as [|r rs IH]; intros q Hq; simpl; [exact Hq|].
  apply IH, nextOceanHealth_tenth.
Qed.

(** X11.  A tick moves the score by one tenth at most: from k tenths,
    with k between 70 and 90 and [Math.random()] in [0, 1), the next
    score is k - 1, k or k + 1 tenths, and stays between 7.0 and
    9.0. *)
Theorem oceanHealth_moves_one_tenth random prev k :
  prev == k # 10 ->
  (70 <= k <= 90)%Z ->
  0 <= random < 1 ->
  exists j,
    (k - 1 <= j <= k + 1)%Z /\ (70 <= j <= 90)%Z /\
    updateOceanHealth random prev == j # 10.
Proof.
  intros Hprev Hk Hrandom.
  destruct (change_range random Hrandom) as [Hlo Hhi].
  unfold updateOceanHealth, nextOceanHealth.
  set (change := (random - (5 # 10)) * (2 # 10)) in *. clearbody change.
  assert (prev == inject_Z k * (1 # 10)) as Hprev'
    by (rewrite Hprev; unfold Qeq; simpl; lia).
  assert (inject_Z 70 <= inject_Z k <= inject_Z 90) as [Hk1 Hk2]
    by (rewrite <- !Zle_Qle; exact Hk).
  change (inject_Z 70) with 70 in Hk1. change (inject_Z 90) with 90 in Hk2.
  assert (0 <= prev + change) as Hpos by lra.
  unfold toFixed1. apply Qle_bool_iff in Hpos. rewrite Hpos.
  set (y := (prev + change) * 10 + (1 # 2)).
  set (m := Qfloor y).
  assert (inject_Z m <= y) as Hm1 by apply Qfloor_le.
  assert (y < inject_Z (m + 1)) as Hm2 by apply Qlt_floor.
  rewrite inject_Z_plus in Hm2.
  assert (inject_Z k - (1 # 2) <= y /\ y < inject_Z k + (3 # 2)) as [Hy1 Hy2]
    by (subst y; split; lra).
  change (inject_Z 1) with 1 in Hm2.
  assert (inject_Z m < inject_Z (k + 2)) as Hup
    by (rewrite inject_Z_plus; change (inject_Z 2) with 2; lra).
  assert (inject_Z (k - 2) < inject_Z m) as Hdown
    by (unfold Z.sub; rewrite inject_Z_plus; change (inject_Z (- (2))) with (-2);
        lra).
  rewrite <- Zlt_Qlt in Hup, Hdown.
  exists (Z.max 70 (Z.min 90 m)).
  split; [lia|]. split; [lia|]. apply clamp_tenth.
Qed.

Lemma oceanHealth_moves_one_tenth_witness :
  exists j,
    (82 - 1 <= j <= 82 + 1)%Z /\ (70 <= j <= 90)%Z /\
    updateOceanHealth (9 # 10) initialOceanHealth == j # 10.
Proof.
  apply (oceanHealth_moves_one_tenth (9 # 10) initialOceanHealth 82).
  - reflexivity.
  - lia.
  - split; [discriminate|reflexivity].
Defined.

End HomeFacts.

(** ** The analysis page *)
Module AnalysisFacts.

Import JS Analysis.

Local Open Scope Z_scope.

(** *** Inversion of the error monad *)

Lemma bind_inr {A B} (m : result A) (k : A -> result B) b :
  bind m k = inr b -> exists a, m = inr a /\ k a = inr b.
Proof. destruct m as [c|a]; simpl; [discriminate|]. eauto. Qed.

Lemma traverse_inr {A B} (f : A -> result B) (P : B -> Prop) l bs :
  (forall a b, f a = inr b -> P b) ->
  traverse f l = inr bs -> Forall P bs.
Proof.
  intros Hf. revert bs. induction l as [|a l IH]; simpl; intros bs H.
  - injection H as <-. constructor.
  - apply bind_inr in H as (b & Hb & H).
    apply bind_inr in H as (bs' & Hbs & H).
    injection H as <-. constructor; eauto.
Qed.

Lemma traverse_total {A B} (f : A -> result B) (P : B -> Prop) l :
  Forall (fun a => exists b, f a = inr b /\ P b) l ->
  exists bs, traverse f l = inr bs /\ Forall P bs.
Proof.
  induction 1 as [|a l (b & Hb & HP) _ (bs & Hbs & HPs)]; simpl.
  - eexists. split; [reflexivity|constructor].
  - rewrite Hb, Hbs. simpl. eexists. split; [reflexivity|].
    constructor; assumption.
Qed.

(** Takes a successful chain of binds in [H] apart. *)
Ltac crack H :=
  repeat
    (let a := fresh "x" in
     let Ha := fresh "Hx" in
     apply bind_inr in H as (a & Ha & H)).

(** *** Where the handlers are *)

Lemma inert_el tag children : Forall inert children -> inert (el tag children).
Proof.
  unfold inert. intros H. simpl.
  induction H as [|n ns Hn _ IH]; simpl; [reflexivity|].
  rewrite Hn, IH. reflexivity.
Qed.

Lemma toFixed_inert d v n : toFixed d v = inr n -> inert n.
Proof. destruct v; simpl; try discriminate. intros [= <-]. reflexivity. Qed.

Lemma plot_inert config payload n : plot config payload = inr n -> inert n.
Proof.
  unfold plot. intros H. crack H. injection H as <-. reflexivity.
Qed.

Lemma and_then_inert c k n :
  (forall m, k = inr m -> inert m) -> and_then c k = inr n -> inert n.
Proof.
  unfold and_then. destruct (truthy_value c); [auto|].
  intros _ [= <-]. reflexivity.
Qed.

Lemma titled_plot_inert title payload n :
  titled_plot title payload = inr n -> inert n.
Proof.
  apply and_then_inert. intros m H. crack H. injection H as <-.
  apply inert_el. repeat constructor. eapply plot_inert; eassumption.
Qed.

(** Closes [inert] goals on trees built from text, figures and parts
    known to be inert. *)
Ltac inert_tac :=
  repeat first
    [ assumption
    | apply inert_el
    | match goal with
      | |- Forall _ [] => constructor
      | |- Forall _ (_ :: _) => constructor
      end
    | (eapply toFixed_inert; eassumption)
    | (eapply plot_inert; eassumption)
    | (eapply titled_plot_inert; eassumption)
    | (unfold inert; reflexivity) ].

Lemma correlations_tab_inert d n : correlations_tab d = inr n -> inert n.
Proof.
  unfold correlations_tab. intros H. crack H. injection H as <-.
  inert_tac.
Qed.

Lemma gradient_inert entry n : gradient entry = inr n -> inert n.
Proof.
  destruct entry as [variable plotData]. unfold gradient. intros H.
  crack H. injection H as <-. inert_tac.
Qed.

Lemma gradients_tab_inert d n : gradients_tab d = inr n -> inert n.
Proof.
  unfold gradients_tab, gradient_list. intros H. crack H. injection H as <-.
  assert (Forall inert x) as Hplots.
  { destruct (truthy_value _).
    - crack Hx. eapply traverse_inr; [|exact Hx]. apply gradient_inert.
    - injection Hx as <-. inert_tac. }
  inert_tac.
Qed.

Lemma hotspots_tab_inert d n : hotspots_tab d = inr n -> inert n.
Proof.
  unfold hotspots_tab. intros H. crack H. injection H as <-.
  assert (inert x)
    by (eapply and_then_inert; [|exact Hx]; intros m; apply plot_inert).
  inert_tac.
Qed.

Lemma condition_card_inert entry n : condition_card entry = inr n -> inert n.
Proof.
  destruct entry as [variable stats]. unfold condition_card. intros H.
  crack H. injection H as <-. inert_tac.
Qed.

Lemma insight_row_inert index insight n :
  insight_row index insight = inr n -> inert n.
Proof.
  unfold insight_row. intros H. crack H. injection H as <-. inert_tac.
Qed.

Lemma biodiversity_panel_inert summary n :
  biodiversity_panel summary = inr n -> inert n.
Proof.
  unfold biodiversity_panel, figure. intros H. crack H. injection H as <-.
  inert_tac.
Qed.

Lemma conditions_panel_inert summary n :
  conditions_panel summary = inr n -> inert n.
Proof.
  unfold conditions_panel. intros H. crack H. injection H as <-.
  assert (Forall inert x1)
    by (eapply traverse_inr; [|eassumption]; apply condition_card_inert).
  inert_tac.
Qed.

Lemma insights_panel_inert summary n :
  insights_panel summary = inr n -> inert n.
Proof.
  unfold insights_panel. intros H. crack H.
  destruct (truthy_value _); [|injection H as <-; reflexivity].
  crack H. destruct x1; [|injection H as <-; reflexivity].
  unfold insights_table in H. crack H. injection H as <-.
  assert (Forall inert x1) as Hrows.
  { unfold array_map in Hx2. destruct x; try discriminate.
    eapply traverse_inr; [|exact Hx2].
    intros a b. apply insight_row_inert. }
  inert_tac.
Qed.

Lemma statistics_tab_inert d n : statistics_tab d = inr n -> inert n.
Proof.
  unfold statistics_tab. intros H. crack H. injection H as <-.
  assert (inert x) as Hpanels.
  { eapply and_then_inert; [|exact Hx]. clear Hx. intros m H.
    crack H. injection H as <-.
    apply biodiversity_panel_inert in Hx.
    apply conditions_panel_inert in Hx0.
    apply insights_panel_inert in Hx1.
    inert_tac. }
  inert_tac.
Qed.

Lemma data_tab_inert active data content n :
  (forall d m, content d = inr m -> inert m) ->
  data_tab active data content = inr n -> inert n.
Proof.
  intros Hc. unfold data_tab. destruct active.
  - destruct data as [d|]; [apply Hc|]. intros [= <-]. reflexivity.
  - intros [= <-]. reflexivity.
Qed.

(** Whatever the main view shows, its handlers are the five of the
    tab bar. *)
Lemma main_view_handlers st n : main_view st = inr n -> handlers n = tab_actions.
Proof.
  unfold main_view. intros H. crack H. injection H as <-.
  apply data_tab_inert in Hx; [|apply correlations_tab_inert].
  apply data_tab_inert in Hx0; [|apply gradients_tab_inert].
  apply data_tab_inert in Hx1; [|apply hotspots_tab_inert].
  apply data_tab_inert in Hx2; [|apply statistics_tab_inert].
  assert (inert (match crossDomainData st with
                 | Some d => overview_stats d
                 | None => Expr VNull
                 end)) as Hcards by (destruct (crossDomainData st); reflexivity).
  assert (inert (if is_tab overview st then overview_tab
                 else Expr (VBool false))) as Hover
      by (destruct (is_tab overview st); reflexivity).
  unfold inert in *. cbn [handlers el flat_map app].
  rewrite Hcards, Hover, Hx, Hx0, Hx1, Hx2. reflexivity.
Qed.

(** *** The three views *)

Lemma display_loading st : loading st = true -> display st = inr loading_view.
Proof. intros H. unfold display, AnalysisPage. rewrite H. reflexivity. Qed.

Lemma display_error st message :
  loading st = false -> error st = Some message -> truthy message = true ->
  display st = inr (error_view message).
Proof.
  intros Hl He Hm. unfold display, AnalysisPage.
  rewrite Hl, He. simpl. rewrite Hm. reflexivity.
Qed.

Lemma buttons_main st :
  loading st = false -> truthy_opt (error st) = false ->
  forall a, a ∈ buttons st -> exists t, a = SetActiveTab t.
Proof.
  intros Hl He a. unfold buttons, display, AnalysisPage. rewrite Hl, He.
  destruct (main_view st) as [c|n] eqn:Hn; simpl; [intros H; inversion H|].
  destruct (accepted n); [|intros H; inversion H].
  rewrite (main_view_handlers _ _ Hn). unfold tab_actions. intros H.
  repeat (apply elem_of_cons in H as [->|H]; [eauto|]). inversion H.
Qed.

Lemma buttons_main_all st n t :
  loading st = false -> truthy_opt (error st) = false ->
  display st = inr n -> SetActiveTab t ∈ buttons st.
Proof.
  intros Hl He Hn. unfold buttons. rewrite Hn.
  unfold display, AnalysisPage in Hn. rewrite Hl, He in Hn.
  apply bind_inr in Hn as (m & Hm & Hn).
  destruct (accepted m); [|discriminate]. injection Hn as <-.
  rewrite (main_view_handlers _ _ Hm). unfold tab_actions.
  destruct t; set_solver.
Qed.

(** *** One page load *)

Lemma step_reachable c e c' : reachable c -> step e c = Some c' -> reachable c'.
Proof. intros. eapply reach_step; eassumption. Qed.

(** While the fetch is in flight the page is as the effect left it;
    afterwards it is not loading and holds data or an error, never
    both.  The request log holds the one request of the effect. *)
Lemma reachable_inv c :
  reachable c ->
  requests c = [fetch (API_BASE_URL +:+ "/cross-domain-analysis")] /\
  if inflight c then page c = fst (loadCrossDomainAnalysis_begin initial)
  else loading (page c) = false /\
       (crossDomainData (page c) = None \/ error (page c) = None).
Proof.
  induction 1 as [|c e c' Hc [Hreq Hinv] Hstep].
  - split; reflexivity.
  - destruct e as [s|a]; simpl in Hstep.
    + destruct (inflight c) eqn:Hfl; [|discriminate].
      injection Hstep as <-. simpl. split; [exact Hreq|].
      rewrite Hinv. unfold loadCrossDomainAnalysis_settle.
      destruct (try_block s); simpl; auto.
    + case_bool_decide as Hin; [|discriminate]. injection Hstep as <-.
      destruct (inflight c) eqn:Hfl.
      * rewrite Hinv in Hin. unfold buttons in Hin.
        rewrite display_loading in Hin by reflexivity.
        simpl in Hin. inversion Hin.
      * destruct a as [t|]; simpl; [|split; reflexivity].
        rewrite Hfl. split; [exact Hreq|exact Hinv].
Qed.

Lemma reachable_data c d :
  reachable c -> crossDomainData (page c) = Some d ->
  inflight c = false /\ loading (page c) = false /\ error (page c) = None.
Proof.
  intros Hc Hd. destruct (reachable_inv c Hc) as [_ Hinv].
  destruct (inflight c).
  - rewrite Hinv in Hd. discriminate.
  - destruct Hinv as [Hl [Hn|He]]; [congruence|auto].
Qed.

(** With data on the page, the only events are tab clicks, and they
    set the tab and nothing else. *)
Lemma step_with_data c d e c' :
  reachable c -> crossDomainData (page c) = Some d -> step e c = Some c' ->
  exists t,
    e = Click (SetActiveTab t) /\
    c' = {| page := setActiveTab t (page c); inflight := false;
            requests := requests c |}.
Proof.
  intros Hc Hd Hstep.
  destruct (reachable_data c d Hc Hd) as (Hfl & Hl & He).
  destruct e as [s|a]; simpl in Hstep.
  - rewrite Hfl in Hstep. discriminate.
  - case_bool_decide as Hin; [|discriminate]. injection Hstep as <-.
    apply buttons_main in Hin as [t ->]; [|exact Hl|rewrite He; reflexivity].
    exists t. simpl. rewrite Hfl. split; reflexivity.
Qed.

Lemma run_with_data es : forall c d c',
  reachable c -> crossDomainData (page c) = Some d -> run es c = Some c' ->
  reachable c' /\
  crossDomainData (page c') = Some d /\ loading (page c') = loading (page c)
  /\ error (page c') = error (page c) /\ requests c' = requests c.
Proof.
  induction es as [|e es IH]; intros c d c' Hc Hd Hrun; simpl in Hrun.
  - injection Hrun as <-. auto.
  - destruct (step e c) as [c1|] eqn:Hstep; [|discriminate].
    destruct (step_with_data c d e c1 Hc Hd Hstep) as (t & -> & Hc1).
    destruct (IH c1 d c') as (Hr & H1 & H2 & H3 & H4).
    + eapply step_reachable; eassumption.
    + rewrite Hc1. exact Hd.
    + exact Hrun.
    + rewrite Hc1 in H2, H3, H4. auto.
Qed.

(** *** The claims on the fetch *)

Lemma try_block_not_ok r :
  ok r = false ->
  try_block (Fulfilled r)
  = inl (if (status r =? 0) || (status r >=? 500)
         then backend_down else load_failed).
Proof.
  intros H. simpl. rewrite H. simpl.
  destruct ((status r =? 0) || (status r >=? 500)); reflexivity.
Qed.

(** C1 as stated fails.  A response with status 404 leaves the
    message that the data failed to load, not the one of a backend
    that is not running. *)
Lemma not_found_is_not_backend_down :
  error (loadCrossDomainAnalysis_settle
           (Fulfilled {| ok := false; status := 404;
                         json := inl "Unexpected token < in JSON" |})
           (page mount))
  = Some "Failed to load cross-domain analysis data" /\
  ~ (forall r st,
        ok r = false ->
        error (loadCrossDomainAnalysis_settle (Fulfilled r) st)
        = Some backend_down).
Proof.
  split; [reflexivity|].
  intros H.
  specialize (H Samples.sample_not_found initial eq_refl).
  vm_compute in H. discriminate H.
Qed.

(** C1, amended.  A response that is not ok puts the page in the error
    state and leaves the data alone.  The message is the one of a
    backend that is not running when the status is 0 or at least 500,
    and the one of data that failed to load for any other status.  The
    page shows the message after "Error: ". *)
Theorem not_ok_sets_error r st :
  ok r = false ->
  let message :=
    if (status r =? 0) || (status r >=? 500)
    then backend_down else load_failed in
  let st' := loadCrossDomainAnalysis_settle (Fulfilled r) st in
  st' = setLoading false (setError (Some message) st) /\
  crossDomainData st' = crossDomainData st /\
  display st' = inr (error_view message) /\
  shown (error_view message)
  = [Text "Error: "; Expr (VStr message); Text "Retry"].
Proof.
  intros Hok message st'. subst st'.
  unfold loadCrossDomainAnalysis_settle.
  rewrite (try_block_not_ok r Hok). fold message.
  split; [reflexivity|]. split; [reflexivity|]. split; [|reflexivity].
  apply display_error with (message := message); [reflexivity..|].
  subst message. destruct ((status r =? 0) || (status r >=? 500)); reflexivity.
Qed.

Lemma not_ok_sets_error_witness :
  error (loadCrossDomainAnalysis_settle
           (Fulfilled Samples.sample_unavailable) initial)
  = Some backend_down /\
  error (loadCrossDomainAnalysis_settle
           (Fulfilled Samples.sample_not_found) initial)
  = Some load_failed.
Proof.
  split.
  - rewrite (proj1 (not_ok_sets_error Samples.sample_unavailable initial
                      eq_refl)).
    reflexivity.
  - rewrite (proj1 (not_ok_sets_error Samples.sample_not_found initial
                      eq_refl)).
    reflexivity.
Defined.

(** C6.  The effect of the first render sends one request, a GET to
    [http://localhost:5000/api/cross-domain-analysis]; every
    configuration of the page load has this request and no other in
    its log.  The body of an ok response, a record of visualizations
    and metadata, becomes [crossDomainData] as it is. *)
Theorem request_and_body :
  requests mount
  = [ {| method := GET;
         url := "http://localhost:5000/api/cross-domain-analysis" |} ] /\
  (forall c, reachable c -> requests c = requests mount) /\
  (forall r d st,
      ok r = true -> json r = inr d ->
      loadCrossDomainAnalysis_settle (Fulfilled r) st
      = setLoading false (setCrossDomainData (Some d) st)).
Proof.
  split; [reflexivity|]. split.
  - intros c Hc. apply reachable_inv in Hc as [Hreq _]. exact Hreq.
  - intros r d st Hok Hjson. unfold loadCrossDomainAnalysis_settle.
    simpl. rewrite Hok, Hjson. reflexivity.
Qed.

Lemma request_and_body_witness :
  requests Samples.loaded = requests mount /\
  crossDomainData
    (loadCrossDomainAnalysis_settle (Fulfilled Samples.sample_ok) initial)
  = Some Samples.sample_data.
Proof.
  split.
  - apply (proj1 (proj2 request_and_body) Samples.loaded).
    apply (reach_step mount (Settle (Fulfilled Samples.sample_ok)));
      [apply reach_mount|reflexivity].
  - rewrite (proj2 (proj2 request_and_body) Samples.sample_ok
               Samples.sample_data initial eq_refl eq_refl).
    reflexivity.
Defined.

(** C4.  In every configuration of a page load the log holds exactly
    the one GET of the mount.  Once [crossDomainData] holds a
    response, the only events left are clicks on the tabs: each sets
    [activeTab] and changes nothing else, each of the five is on offer
    whenever the page is displayed, and after any sequence of events
    the data, the flags and the log are what they were. *)
Theorem fetched_once_then_frozen c :
  reachable c ->
  requests c = [fetch "http://localhost:5000/api/cross-domain-analysis"] /\
  forall d,
    crossDomainData (page c) = Some d ->
    (forall e c',
        step e c = Some c' ->
        exists t,
          e = Click (SetActiveTab t) /\
          c' = {| page := setActiveTab t (page c); inflight := false;
                  requests := requests c |}) /\
    (forall n t,
        display (page c) = inr n ->
        step (Click (SetActiveTab t)) c
        = Some {| page := setActiveTab t (page c); inflight := false;
                  requests := requests c |}) /\
    (forall es c',
        run es c = Some c' ->
        crossDomainData (page c') = Some d /\
        loading (page c') = loading (page c) /\
        error (page c') = error (page c) /\
        requests c' = requests c).
Proof.
  intros Hc. split; [apply reachable_inv, Hc|].
  intros d Hd. split; [|split].
  - intros e c'. apply step_with_data with (d := d); assumption.
  - intros n t Hn.
    destruct (reachable_data c d Hc Hd) as (Hfl & Hl & He).
    simpl. rewrite bool_decide_eq_true_2.
    + simpl. rewrite Hfl. reflexivity.
    + eapply buttons_main_all; [exact Hl|rewrite He; reflexivity|exact Hn].
  - intros es c' Hrun. eapply run_with_data; eassumption.
Qed.

Lemma fetched_once_then_frozen_witness :
  requests Samples.loaded
  = [fetch "http://localhost:5000/api/cross-domain-analysis"] /\
  forall es c',
    run es Samples.loaded = Some c' ->
    crossDomainData (page c') = Some Samples.sample_data /\
    loading (page c') = loading (page Samples.loaded) /\
    error (page c') = error (page Samples.loaded) /\
    requests c' = requests Samples.loaded.
Proof.
  assert (reachable Samples.loaded) as Hc.
  { apply (reach_step mount (Settle (Fulfilled Samples.sample_ok)));
      [apply reach_mount|reflexivity]. }
  destruct (fetched_once_then_frozen Samples.loaded Hc) as [Hreq Hdata].
  split; [exact Hreq|].
  apply (Hdata Samples.sample_data eq_refl).
Defined.

(** C7.  In the error state, that is when the page is not loading and
    holds a truthy error, it shows "Error: " with the message and one
    button, Retry.  The click on Retry is the only event there is, and
    it loads the page anew: the state is the one of the mount, whose
    effect sends the request. *)
Theorem error_state_offers_reload_only c message :
  reachable c ->
  loading (page c) = false ->
  error (page c) = Some message ->
  truthy message = true ->
  display (page c) = inr (error_view message) /\
  shown (error_view message)
  = [Text "Error: "; Expr (VStr message); Text "Retry"] /\
  buttons (page c) = [WindowLocationReload] /\
  step (Click WindowLocationReload) c = Some mount /\
  forall e c', step e c = Some c' -> e = Click WindowLocationReload /\ c' = mount.
Proof.
  intros Hc Hl He Hm.
  assert (display (page c) = inr (error_view message)) as Hd
    by (apply display_error; assumption).
  assert (buttons (page c) = [WindowLocationReload]) as Hb
    by (unfold buttons; rewrite Hd; reflexivity).
  split; [exact Hd|]. split; [reflexivity|]. split; [exact Hb|].
  assert (inflight c = false) as Hfl.
  { destruct (reachable_inv c Hc) as [_ Hinv].
    destruct (inflight c); [|reflexivity].
    rewrite Hinv in Hl. discriminate. }
  split.
  - simpl. rewrite Hb. reflexivity.
  - intros e c' Hstep. destruct e as [s|a]; simpl in Hstep.
    + rewrite Hfl in Hstep. discriminate.
    + rewrite Hb in Hstep. case_bool_decide as Hin; [|discriminate].
      apply list_elem_of_singleton in Hin as ->.
      injection Hstep as <-. split; reflexivity.
Qed.

Lemma error_state_offers_reload_only_witness :
  buttons (page Samples.failed) = [WindowLocationReload] /\
  step (Click WindowLocationReload) Samples.failed = Some mount.
Proof.
  assert (reachable Samples.failed) as Hc.
  { apply (reach_step mount (Settle (Fulfilled Samples.sample_not_found)));
      [apply reach_mount|reflexivity]. }
  destruct (error_state_offers_reload_only Samples.failed load_failed Hc
              eq_refl eq_refl eq_refl) as (_ & _ & Hb & Hs & _).
  split; [exact Hb|exact Hs].
Defined.

(** *** The statistics tab under the contract *)

Lemma get_defined k v : field k v <> VUndefined -> get v k = inr (field k v).
Proof. destruct v; simpl; congruence. Qed.

Lemma number_defined v : is_number v = true -> v <> VUndefined.
Proof. destruct v; simpl; congruence. Qed.

Lemma field_defined k v : field k v <> VUndefined -> v <> VUndefined.
Proof. destruct v; simpl; congruence. Qed.

Lemma get_number k v :
  is_number (field k v) = true ->
  exists q, field k v = VNum q /\ get v k = inr (VNum q).
Proof.
  intros H. rewrite get_defined by (apply number_defined, H).
  destruct (field k v); try discriminate. eauto.
Qed.

Lemma field_is_object k v :
  field k v <> VUndefined -> exists fields, v = VObj fields.
Proof. destruct v; simpl; try congruence. eauto. Qed.

Lemma printed_valid v : is_printed v = true -> valid_child v = true.
Proof. destruct v; try discriminate; reflexivity. Qed.

Lemma printed_defined v : is_printed v = true -> v <> VUndefined.
Proof. unfold is_printed. destruct v; simpl; intros H; congruence. Qed.

Lemma accepted_el tag onClick children :
  accepted (El tag onClick children) = forallb accepted children.
Proof.
  unfold accepted. simpl. induction children as [|n ns IH]; [reflexivity|].
  simpl. rewrite forallb_app, IH. reflexivity.
Qed.

Lemma accepted_children tag children :
  Forall (fun n => accepted n = true) children ->
  accepted (el tag children) = true.
Proof.
  intros H. unfold el. rewrite accepted_el. apply forallb_forall.
  intros n Hn. rewrite Forall_forall in H. apply H, list_elem_of_In, Hn.
Qed.

Lemma follows_cons a b x l : follows a b l -> follows a b (x :: l).
Proof. destruct l as [|y l]; simpl; [contradiction|]. intros H. right. exact H. Qed.

Lemma follows_here a b l : follows a b (a :: b :: l).
Proof. left. split; reflexivity. Qed.

#[local] Arguments follows : simpl never.

Lemma biodiversity_panel_ok summary :
  biodiversity_readable (field k_biodiversity_summary summary) = true ->
  exists n,
    biodiversity_panel summary = inr n /\
    accepted n = true /\
    exists rest,
      shown n
      = Text "Biodiversity Summary" :: Text "Total Species"
        :: Expr (field k_total_species (field k_biodiversity_summary summary))
        :: rest.
Proof.
  unfold biodiversity_readable. intros H.
  apply andb_prop in H as [H Hmax]. apply andb_prop in H as [H Hmean].
  apply andb_prop in H as [Hspecies Hobs].
  apply printed_valid in Hspecies as Hvalid.
  destruct (field_is_object _ _ (printed_defined _ Hspecies)) as [bf Eb].
  destruct (field_is_object k_biodiversity_summary summary) as [sf ->];
    [rewrite Eb; discriminate|].
  rewrite Eb in *.
  destruct (field_is_object _ _ (number_defined _ Hmean)) as [stf Est].
  rewrite Est in *.
  unfold biodiversity_panel. cbn [get bind field] in *. rewrite Eb.
  cbn [get bind field] in *. rewrite Est. cbn [get bind field] in *.
  destruct (lookup_field (key_name k_mean) stf) as [| | |mean| | |];
    try discriminate.
  cbn [toFixed bind]. eexists. split; [reflexivity|]. split.
  - unfold accepted. cbn -[valid_child key_name].
    rewrite Hvalid, Hobs, Hmax. reflexivity.
  - eexists. reflexivity.
Qed.

Lemma condition_card_ok variable stats :
  condition_readable stats = true ->
  exists n, condition_card (variable, stats) = inr n /\ accepted n = true.
Proof.
  unfold condition_readable. intros H.
  apply andb_prop in H as [H Hunit]. apply andb_prop in H as [H Hstd].
  apply andb_prop in H as [H Hmax]. apply andb_prop in H as [Hmean Hmin].
  destruct (field_is_object _ _ (number_defined _ Hmean)) as [fs ->].
  unfold condition_card. cbn [get bind field] in *.
  destruct (lookup_field (key_name k_mean) fs) as [| | |mean| | |];
    try discriminate.
  destruct (lookup_field (key_name k_min) fs) as [| | |min| | |];
    try discriminate.
  destruct (lookup_field (key_name k_max) fs) as [| | |max| | |];
    try discriminate.
  destruct (lookup_field (key_name k_std) fs) as [| | |std| | |];
    try discriminate.
  cbn [toFixed bind]. eexists. split; [reflexivity|].
  unfold accepted. cbn -[valid_child key_name]. rewrite Hunit. reflexivity.
Qed.

Lemma conditions_panel_ok summary conditions :
  field k_ocean_conditions_summary summary = VObj conditions ->
  forallb (fun e => condition_readable (snd e)) conditions = true ->
  exists n, conditions_panel summary = inr n /\ accepted n = true.
Proof.
  intros Hf Hall. unfold conditions_panel.
  rewrite get_defined by (rewrite Hf; discriminate). rewrite Hf. simpl.
  destruct (traverse_total condition_card (fun n => accepted n = true)
              conditions) as (cards & Hcards & Hacc).
  { apply Forall_forall. intros [variable stats] Hin.
    apply condition_card_ok.
    rewrite forallb_forall in Hall.
    apply (Hall (variable, stats)), list_elem_of_In, Hin. }
  rewrite Hcards. simpl. eexists. split; [reflexivity|].
  apply accepted_children. repeat constructor.
  apply accepted_children, Hacc.
Qed.

Lemma insight_row_ok index insight :
  insight_readable insight = true ->
  exists n, insight_row index insight = inr n /\ accepted n = true.
Proof.
  unfold insight_readable. intros H.
  apply andb_prop in H as [H Hp]. apply andb_prop in H as [H Hc].
  apply andb_prop in H as [Hs Hv].
  destruct (field_is_object _ _ (number_defined _ Hc)) as [fs ->].
  unfold insight_row. cbn [get bind field] in *.
  destruct (lookup_field (key_name k_correlation) fs) as [| | |corr| | |];
    try discriminate.
  destruct (lookup_field (key_name k_p_value) fs) as [| | |pv| | |];
    try discriminate.
  cbn [toFixed bind]. eexists. split; [reflexivity|].
  unfold accepted. cbn -[valid_child key_name]. rewrite Hs, Hv. reflexivity.
Qed.

Lemma insight_rows_ok insights : forall (f : nat -> value -> nat * value),
  (forall i x, snd (f i x) = x) ->
  forallb insight_readable insights = true ->
  exists rows,
    traverse (fun p => insight_row (fst p) (snd p)) (imap f insights)
    = inr rows /\
    Forall (fun n => accepted n = true) rows.
Proof.
  induction insights as [|x l IH]; intros f Hf Hall; simpl.
  - eexists. split; [reflexivity|constructor].
  - apply andb_prop in Hall as [Hx Hl].
    destruct (insight_row_ok (fst (f 0%nat x)) x Hx) as (n & Hn & Hacc).
    rewrite Hf, Hn. simpl.
    destruct (IH (f ∘ S)) as (rows & Hrows & Haccs);
      [intros i y; apply Hf|exact Hl|].
    rewrite Hrows. simpl. eexists. split; [reflexivity|].
    constructor; assumption.
Qed.

Lemma insights_panel_ok summary insights :
  field k_correlation_insights summary = VArr insights ->
  forallb insight_readable insights = true ->
  exists n, insights_panel summary = inr n /\ accepted n = true.
Proof.
  intros Hf Hall. unfold insights_panel.
  rewrite get_defined by (rewrite Hf; discriminate). rewrite Hf. simpl.
  destruct (negb _).
  - unfold insights_table, array_map.
    destruct (insight_rows_ok insights pair) as (rows & Hrows & Hacc);
      [reflexivity|exact Hall|].
    rewrite Hrows. simpl. eexists. split; [reflexivity|].
    apply accepted_children. repeat constructor.
    apply accepted_children. repeat constructor.
    apply accepted_children. repeat constructor.
    apply accepted_children, Hacc.
  - eexists. split; reflexivity.
Qed.

Lemma statistics_tab_ok d :
  summary_readable (statistical_summary (visualizations d)) = true ->
  exists n,
    statistics_tab d = inr n /\
    is_printed (total_species_of d) = true /\
    accepted n = true /\
    labelled "Total Species" (total_species_of d) n.
Proof.
  unfold summary_readable, total_species_of, statistics_tab.
  set (summary := statistical_summary (visualizations d)).
  intros H. apply andb_prop in H as [H Hins]. apply andb_prop in H as [Hbio Hcond].
  destruct (biodiversity_panel_ok summary Hbio)
    as (nb & Hnb & Hab & rest & Hshown).
  assert (is_printed
            (field k_total_species (field k_biodiversity_summary summary))
          = true) as Hprinted.
  { unfold biodiversity_readable in Hbio.
    repeat (apply andb_prop in Hbio as [Hbio _]). exact Hbio. }
  destruct (field k_ocean_conditions_summary summary) as [| | | | | |conds] eqn:Ec;
    try discriminate.
  destruct (conditions_panel_ok summary conds Ec Hcond) as (nc & Hnc & Hac).
  destruct (field k_correlation_insights summary) as [| | | | |ins|] eqn:Ei;
    try discriminate.
  destruct (insights_panel_ok summary ins Ei Hins) as (ni & Hni & Hai).
  assert (truthy_value summary = true) as Htruthy.
  { destruct summary; simpl in Ec; try discriminate. reflexivity. }
  unfold summary_panels, and_then. rewrite Htruthy, Hnb, Hnc, Hni. simpl.
  eexists. split; [reflexivity|]. split; [exact Hprinted|]. split.
  - apply accepted_children. repeat constructor.
    apply accepted_children. repeat constructor; assumption.
  - unfold labelled. simpl. rewrite Hshown.
    simpl. do 3 apply follows_cons. apply follows_here.
Qed.

(** The page on the statistics tab with a body as its data is a
    configuration of a page load, when the overview of that body is
    displayed. *)
Lemma on_statistics_reachable d :
  bool_decide
    (SetActiveTab statistics
     ∈ buttons {| crossDomainData := Some d; loading := false;
                  error := None; activeTab := overview |}) = true ->
  reachable (Samples.on_statistics d).
Proof.
  intros Hin.
  apply (reach_step
           {| page := {| crossDomainData := Some d; loading := false;
                         error := None; activeTab := overview |};
              inflight := false; requests := requests mount |}
           (Click (SetActiveTab statistics))).
  - apply (reach_step mount
             (Settle (Fulfilled {| ok := true; status := 200;
                                   json := inr d |})));
      [apply reach_mount|reflexivity].
  - unfold step. cbn [page].
    rewrite Hin. reflexivity.
Qed.




(** *** The page load as a whole *)

Lemma reachable_flags c :
  reachable c ->
  loading (page c) = inflight c /\
  (crossDomainData (page c) = None \/ error (page c) = None).
Proof.
  intros Hc. destruct (reachable_inv c Hc) as [_ Hinv].
  destruct (inflight c).
  - rewrite Hinv. split; [reflexivity|left; reflexivity].
  - exact Hinv.
Qed.

(** X12.  The loading view is on display exactly while the fetch is in
    flight, and it has no button; at no time does the page hold both
    data and an error. *)
Theorem loading_while_in_flight c :
  reachable c ->
  loading (page c) = inflight c /\
  (inflight c = true ->
   display (page c) = inr loading_view /\ buttons (page c) = []) /\
  (crossDomainData (page c) = None \/ error (page c) = None).
Proof.
  intros Hc. destruct (reachable_inv c Hc) as [_ Hinv].
  destruct (inflight c).
  - rewrite Hinv. split; [reflexivity|]. split; [|left; reflexivity].
    intros _. split; reflexivity.
  - destruct Hinv as [Hl Hde]. split; [exact Hl|].
    split; [discriminate|exact Hde].
Qed.

Lemma loading_while_in_flight_witness :
  loading (page Samples.loaded) = inflight Samples.loaded /\
  loading (page mount) = inflight mount.
Proof.
  split.
  - apply (loading_while_in_flight Samples.loaded).
    apply (reach_step mount (Settle (Fulfilled Samples.sample_ok)));
      [apply reach_mount|reflexivity].
  - apply (loading_while_in_flight mount), reach_mount.
Defined.

Lemma settle_failure s message st :
  try_block s = inl message ->
  loadCrossDomainAnalysis_settle s st
  = setLoading false (setError (Some message) st).
Proof. intros H. unfold loadCrossDomainAnalysis_settle. rewrite H. reflexivity. Qed.

(** X13.  A fetch that rejects, and an ok response whose body does not
    parse, put the page in the error view with the message of the
    rejection or of the parser, when that message is not empty; the
    data is left as it was. *)
Theorem failure_shows_its_message st message :
  truthy message = true ->
  (display (loadCrossDomainAnalysis_settle (Rejected message) st)
   = inr (error_view message)
   /\ crossDomainData (loadCrossDomainAnalysis_settle (Rejected message) st)
      = crossDomainData st)
  /\ forall r,
       ok r = true -> json r = inl message ->
       display (loadCrossDomainAnalysis_settle (Fulfilled r) st)
       = inr (error_view message)
       /\ crossDomainData (loadCrossDomainAnalysis_settle (Fulfilled r) st)
          = crossDomainData st.
Proof.
  intros Hm. split.
  - rewrite (settle_failure (Rejected message) message st eq_refl).
    split; [|reflexivity]. apply display_error; [reflexivity..|exact Hm].
  - intros r Hok Hjson.
    rewrite (settle_failure (Fulfilled r) message st)
      by (simpl; rewrite Hok, Hjson; reflexivity).
    split; [|reflexivity]. apply display_error; [reflexivity..|exact Hm].
Qed.

Lemma failure_shows_its_message_witness :
  display (loadCrossDomainAnalysis_settle (Rejected "Failed to fetch")
             (page mount))
  = inr (error_view "Failed to fetch").
Proof.
  apply (failure_shows_its_message (page mount) "Failed to fetch").
  reflexivity.
Defined.

Lemma main_view_without_data st :
  crossDomainData st = None ->
  exists n, main_view st = inr n /\ accepted n = true.
Proof.
  intros Hd. unfold main_view, is_tab. rewrite Hd.
  destruct (activeTab st); eexists; split; reflexivity.
Qed.

Lemma display_main st n :
  loading st = false -> truthy_opt (error st) = false ->
  main_view st = inr n -> accepted n = true ->
  display st = inr n /\ buttons st = tab_actions.
Proof.
  intros Hl He Hn Ha.
  assert (display st = inr n) as Hd.
  { unfold display, AnalysisPage. rewrite Hl, He, Hn. simpl. rewrite Ha.
    reflexivity. }
  split; [exact Hd|]. unfold buttons. rewrite Hd.
  apply (main_view_handlers st), Hn.
Qed.

Lemma run_without_message es : forall c,
  reachable c -> loading (page c) = false -> error (page c) = Some EmptyString ->
  forall c', run es c = Some c' ->
    reachable c' /\ loading (page c') = false
    /\ error (page c') = Some EmptyString /\ requests c' = requests c.
Proof.
  induction es as [|e es IH]; intros c Hc Hl He c' Hrun; simpl in Hrun.
  - injection Hrun as <-. auto.
  - destruct (step e c) as [c1|] eqn:Hstep; [|discriminate].
    assert (reachable c1) as Hc1 by (eapply step_reachable; eassumption).
    assert (loading (page c1) = false /\ error (page c1) = Some EmptyString
            /\ requests c1 = requests c) as (Hl1 & He1 & Hr1).
    { destruct e as [s|a]; simpl in Hstep.
      - destruct (reachable_flags c Hc) as [Hfl _].
        rewrite <- Hfl, Hl in Hstep. discriminate.
      - case_bool_decide as Hin; [|discriminate]. injection Hstep as <-.
        apply buttons_main in Hin as [t ->];
          [|exact Hl|rewrite He; reflexivity].
        simpl. auto. }
    destruct (IH c1 Hc1 Hl1 He1 c' Hrun) as (H1 & H2 & H3 & H4).
    rewrite Hr1 in H4. auto.
Qed.

(** X14.  An error with an empty message does not count as one: the
    page shows the main view without data, offers the five tabs and
    no Retry, and from there no sequence of events brings data, a
    visible error or another request. *)
Theorem empty_message_hides_the_error c :
  reachable c ->
  loading (page c) = false ->
  error (page c) = Some EmptyString ->
  crossDomainData (page c) = None /\
  (exists n, display (page c) = inr n) /\
  buttons (page c) = tab_actions /\
  forall es c',
    run es c = Some c' ->
    crossDomainData (page c') = None /\
    buttons (page c') = tab_actions /\
    requests c' = requests c.
Proof.
  assert (forall c, reachable c -> loading (page c) = false ->
                    error (page c) = Some EmptyString ->
                    crossDomainData (page c) = None /\
                    (exists n, display (page c) = inr n) /\
                    buttons (page c) = tab_actions) as Hhere.
  { intros c0 Hc Hl He.
    assert (crossDomainData (page c0) = None) as Hd.
    { destruct (reachable_flags c0 Hc) as (_ & [Hd|Hn]);
        [exact Hd|congruence]. }
    destruct (main_view_without_data (page c0) Hd) as (n & Hn & Ha).
    destruct (display_main (page c0) n Hl) as [Hdis Hb];
      [rewrite He; reflexivity|exact Hn|exact Ha|].
    split; [exact Hd|]. split; [exists n; exact Hdis|exact Hb]. }
  intros Hc Hl He.
  destruct (Hhere c Hc Hl He) as (Hd & Hn & Hb).
  split; [exact Hd|]. split; [exact Hn|]. split; [exact Hb|].
  intros es c' Hrun.
  destruct (run_without_message es c Hc Hl He c' Hrun) as (Hc' & Hl' & He' & Hr).
  destruct (Hhere c' Hc' Hl' He') as (Hd' & _ & Hb').
  auto.
Qed.

Lemma empty_message_hides_the_error_witness :
  exists c,
    step (Settle (Rejected EmptyString)) mount = Some c /\
    crossDomainData (page c) = None /\
    buttons (page c) = tab_actions.
Proof.
  eexists. split; [reflexivity|].
  match goal with
  | |- crossDomainData (page ?c) = _ /\ _ =>
      assert (reachable c) as Hc
        by (apply (reach_step mount (Settle (Rejected EmptyString)));
            [apply reach_mount|reflexivity]);
      destruct (empty_message_hides_the_error c Hc eq_refl eq_refl)
        as (Hd & _ & Hb & _)
  end.
  split; [exact Hd|exact Hb].
Defined.

(** *** What the tabs need from the response *)

Lemma plot_total config payload :
  truthy_value payload = true ->
  exists n, plot config payload = inr n /\ accepted n = true.
Proof.
  destruct payload; try discriminate; intros _; eexists; split; reflexivity.
Qed.

Lemma and_then_total c k :
  (truthy_value c = true -> exists n, k = inr n /\ accepted n = true) ->
  exists n, and_then c k = inr n /\ accepted n = true.
Proof.
  unfold and_then. destruct (truthy_value c) eqn:E; [auto|].
  intros _. eexists. split; [reflexivity|].
  destruct c; try discriminate; try reflexivity.
Qed.

Lemma titled_plot_total title payload :
  exists n, titled_plot title payload = inr n /\ accepted n = true.
Proof.
  apply and_then_total. intros Ht.
  destruct (plot_total static_config payload Ht) as (n & Hn & Ha).
  rewrite Hn. simpl. eexists. split; [reflexivity|].
  apply accepted_children. repeat constructor. exact Ha.
Qed.

Lemma correlations_tab_total d :
  exists n, correlations_tab d = inr n /\ accepted n = true.
Proof.
  unfold correlations_tab.
  destruct (titled_plot_total "Correlation Heatmap"
              (correlation_heatmap (visualizations d))) as (n1 & -> & H1).
  destruct (titled_plot_total "Ocean Variables Scatter Matrix"
              (scatter_matrix (visualizations d))) as (n2 & -> & H2).
  destruct (titled_plot_total "Species-Environment Relationships"
              (species_environment (visualizations d))) as (n3 & -> & H3).
  simpl. eexists. split; [reflexivity|].
  apply accepted_children. repeat constructor.
  apply accepted_children. repeat constructor; assumption.
Qed.

Lemma hotspots_tab_total d :
  exists n, hotspots_tab d = inr n /\ accepted n = true.
Proof.
  unfold hotspots_tab.
  destruct (and_then_total (biodiversity_hotspots (visualizations d))
              (plot responsive_config (biodiversity_hotspots (visualizations d))))
    as (n & -> & Ha); [apply plot_total|].
  simpl. eexists. split; [reflexivity|].
  apply accepted_children. repeat constructor. exact Ha.
Qed.

(** Opens [main_view] for a state whose data and tab are known by [Hd]
    and [Htab]. *)
Ltac open_main_view Hd Htab :=
  unfold main_view, is_tab; rewrite Hd, Htab;
  repeat match goal with
         | |- context [bool_decide (?a = ?b)] =>
             let v := eval vm_compute in (bool_decide (a = b)) in
             change (bool_decide (a = b)) with v
         end;
  cbn -[accepted].

(** X15.  With a body of the declared type [CrossDomainAnalysis] as
    its data (a [metadata] whose two counts are numbers and whose
    [ocean_variables] is an array, and a [visualizations] object), the
    overview, the correlations and the hotspots tab are displayed
    whatever the chart payloads, which are typed [any], hold: a missing
    or falsy chart is left out, and any other value is handed to the
    chart component. *)
Theorem chart_tabs_always_display st :
  loading st = false ->
  truthy_opt (error st) = false ->
  activeTab st = overview \/ activeTab st = correlations
  \/ activeTab st = hotspots ->
  exists n, display st = inr n /\ buttons st = tab_actions.
Proof.
  intros Hl He Htab.
  assert (exists n, main_view st = inr n /\ accepted n = true)
    as (n & Hn & Ha).
  { destruct (crossDomainData st) as [d|] eqn:Hd;
      [|apply main_view_without_data, Hd].
    destruct Htab as [Htab|[Htab|Htab]].
    - open_main_view Hd Htab. eexists. split; reflexivity.
    - destruct (correlations_tab_total d) as (m & Hm & Hacc).
      open_main_view Hd Htab. rewrite Hm. cbn -[accepted].
      eexists. split; [reflexivity|].
      apply accepted_children. repeat constructor.
      apply accepted_children. repeat constructor. exact Hacc.
    - destruct (hotspots_tab_total d) as (m & Hm & Hacc).
      open_main_view Hd Htab. rewrite Hm. cbn -[accepted].
      eexists. split; [reflexivity|].
      apply accepted_children. repeat constructor.
      apply accepted_children. repeat constructor. exact Hacc. }
  exists n. apply display_main; assumption.
Qed.

Lemma chart_tabs_always_display_witness :
  exists n,
    display (setActiveTab correlations (page Samples.loaded)) = inr n /\
    buttons (setActiveTab correlations (page Samples.loaded)) = tab_actions.
Proof.
  apply (chart_tabs_always_display
           (setActiveTab correlations (page Samples.loaded)));
    [reflexivity|reflexivity|right; left; reflexivity].
Defined.

Lemma display_crash st crash :
  loading st = false -> truthy_opt (error st) = false ->
  main_view st = inl crash ->
  display st = inl crash /\ buttons st = [].
Proof.
  intros Hl He Hm.
  assert (display st = inl crash) as Hd
    by (unfold display, AnalysisPage; rewrite Hl, He, Hm; reflexivity).
  split; [exact Hd|]. unfold buttons. rewrite Hd. reflexivity.
Qed.

Lemma get_truthy k v :
  truthy_value v = true -> k <> k_length -> get v k = inr (field k v).
Proof.
  intros Ht Hk. destruct v; try discriminate; try reflexivity;
    destruct k; try reflexivity; contradiction.
Qed.

(** X16.  On the statistics tab, a statistical summary that is truthy
    but has no [biodiversity_summary] (it is [undefined] or [null])
    makes the component throw a [TypeError] at
    [biodiversity_summary.total_species]: nothing is displayed, the
    tab bar included. *)
Theorem statistics_needs_biodiversity_summary st d :
  loading st = false ->
  truthy_opt (error st) = false ->
  crossDomainData st = Some d ->
  activeTab st = statistics ->
  truthy_value (statistical_summary (visualizations d)) = true ->
  field k_biodiversity_summary (statistical_summary (visualizations d))
  = VUndefined
  \/ field k_biodiversity_summary (statistical_summary (visualizations d))
     = VNull ->
  display st = inl TypeError /\ buttons st = [].
Proof.
  intros Hl He Hd Htab Htruthy Hmissing.
  apply display_crash; [exact Hl|exact He|].
  assert (statistics_tab d = inl TypeError) as Hs.
  { unfold statistics_tab, summary_panels, and_then, biodiversity_panel.
    rewrite Htruthy.
    rewrite (get_truthy k_biodiversity_summary _ Htruthy) by discriminate.
    destruct Hmissing as [-> | ->]; reflexivity. }
  open_main_view Hd Htab. rewrite Hs. reflexivity.
Qed.

Lemma statistics_needs_biodiversity_summary_witness :
  let d :=
    {| visualizations :=
         {| correlation_heatmap := VNull; scatter_matrix := VNull;
            species_environment := VNull; environmental_gradients := VNull;
            biodiversity_hotspots := VNull;
            statistical_summary := VObj [("correlation_insights", VArr [])] |};
       metadata := metadata Samples.sample_data |} in
  let st :=
    {| crossDomainData := Some d; loading := false; error := None;
       activeTab := statistics |} in
  display st = inl TypeError /\ buttons st = [].
Proof.
  intros d st.
  apply (statistics_needs_biodiversity_summary st d
           eq_refl eq_refl eq_refl eq_refl);
    [reflexivity|left; reflexivity].
Defined.

Lemma traverse_fails {A B} (f : A -> result B) l a :
  In a l -> (exists crash, f a = inl crash) ->
  exists crash, traverse f l = inl crash.
Proof.
  intros Hin Hfail. induction l as [|b l IH]; [destruct Hin|].
  simpl. destruct (f b) as [crash|n] eqn:Hb; [eauto|].
  destruct Hin as [->|Hin].
  - destruct Hfail as [crash Hfail]. congruence.
  - destruct (IH Hin) as [crash ->]. simpl. eauto.
Qed.

(** X17.  On the gradients tab, an entry of [environmental_gradients]
    that is null makes the component throw: nothing is displayed. *)
Theorem gradients_need_every_payload st d entries name :
  loading st = false ->
  truthy_opt (error st) = false ->
  crossDomainData st = Some d ->
  activeTab st = gradients ->
  environmental_gradients (visualizations d) = VObj entries ->
  In (name, VNull) entries ->
  exists crash, display st = inl crash /\ buttons st = [].
Proof.
  intros Hl He Hd Htab Hg Hin.
  assert (exists crash, gradients_tab d = inl crash) as [crash Hcrash].
  { unfold gradients_tab, gradient_list. rewrite Hg. simpl.
    destruct (traverse_fails gradient entries (name, VNull) Hin) as [c ->];
      [|simpl; eauto].
    unfold gradient. destruct (capitalize name); simpl; eauto. }
  exists crash. apply display_crash; [exact Hl|exact He|].
  open_main_view Hd Htab. rewrite Hcrash. reflexivity.
Qed.

Lemma gradients_need_every_payload_witness :
  let d :=
    {| visualizations :=
         {| correlation_heatmap := VNull; scatter_matrix := VNull;
            species_environment := VNull;
            environmental_gradients :=
              VObj [("temperature", VObj [("data", VArr [])]);
                    ("salinity", VNull)];
            biodiversity_hotspots := VNull;
            statistical_summary := VNull |};
       metadata := metadata Samples.sample_data |} in
  let st :=
    {| crossDomainData := Some d; loading := false; error := None;
       activeTab := gradients |} in
  exists crash, display st = inl crash /\ buttons st = [].
Proof.
  intros d st.
  apply (gradients_need_every_payload st d
           [("temperature", VObj [("data", VArr [])]); ("salinity", VNull)]
           "salinity" eq_refl eq_refl eq_refl eq_refl eq_refl).
  right. left. reflexivity.
Defined.

Lemma lookup_assign_eq name v fields :
  lookup_field name (assign name v fields) = v.
Proof.
  induction fields as [|[n w] r IH]; simpl.
  - rewrite String.eqb_refl. reflexivity.
  - destruct (String.eqb n name) eqn:E; simpl; rewrite E; [reflexivity|exact IH].
Qed.

Lemma lookup_assign_ne name name' v fields :
  name <> name' ->
  lookup_field name' (assign name v fields) = lookup_field name' fields.
Proof.
  intros Hne. induction fields as [|[n w] r IH]; simpl.
  - apply String.eqb_neq in Hne. rewrite Hne. reflexivity.
  - destruct (String.eqb n name) eqn:E; simpl.
    + apply String.eqb_eq in E. subst n.
      apply String.eqb_neq in Hne. rewrite Hne. reflexivity.
    + rewrite IH. reflexivity.
Qed.

(** X18.  The layout handed to a chart has height 400, the margins of
    50 and [autosize] on, whatever the payload says about them; every
    other field of the payload's layout is passed on as it is. *)
Theorem plot_layout_fields layout :
  exists fields,
    plot_layout layout = VObj fields /\
    lookup_field "height" fields = VNum 400 /\
    lookup_field "margin" fields = margin50 /\
    lookup_field "autosize" fields = VBool true /\
    forall name,
      name <> "height" -> name <> "margin" -> name <> "autosize" ->
      lookup_field name fields = lookup_field name (own_entries layout).
Proof.
  eexists. split; [reflexivity|]. repeat split.
  - rewrite !lookup_assign_ne by discriminate. apply lookup_assign_eq.
  - rewrite lookup_assign_ne by discriminate. apply lookup_assign_eq.
  - apply lookup_assign_eq.
  - intros name H1 H2 H3. rewrite !lookup_assign_ne by congruence.
    reflexivity.
Qed.

Lemma plot_layout_fields_witness :
  exists fields,
    plot_layout (VObj [("title", VStr "SST"); ("height", VNum 900)])
    = VObj fields /\
    lookup_field "height" fields = VNum 400 /\
    lookup_field "title" fields = VStr "SST".
Proof.
  destruct (plot_layout_fields
              (VObj [("title", VStr "SST"); ("height", VNum 900)]))
    as (fields & Hf & Hh & _ & _ & Hother).
  exists fields. split; [exact Hf|]. split; [exact Hh|].
  rewrite (Hother "title") by discriminate. reflexivity.
Defined.

(** X19.  Whenever the main view is displayed, whatever the tab and
    the data, the buttons on it are the five tabs in their order and
    nothing else. *)
Theorem tab_bar_is_all_there_is st n :
  loading st = false ->
  truthy_opt (error st) = false ->
  display st = inr n ->
  buttons st = tab_actions /\ handlers n = tab_actions.
Proof.
  intros Hl He Hn.
  assert (handlers n = tab_actions) as Hh.
  { unfold display, AnalysisPage in Hn. rewrite Hl, He in Hn.
    apply bind_inr in Hn as (m & Hm & Hn).
    destruct (accepted m); [|discriminate]. injection Hn as <-.
    apply (main_view_handlers st), Hm. }
  split; [|exact Hh]. unfold buttons. rewrite Hn. exact Hh.
Qed.

Lemma tab_bar_is_all_there_is_witness :
  buttons (setActiveTab statistics (page Samples.loaded)) = tab_actions.
Proof.
  destruct (display (setActiveTab statistics (page Samples.loaded)))
    as [crash|n] eqn:Hn; [vm_compute in Hn; discriminate Hn|].
  apply (tab_bar_is_all_there_is
           (setActiveTab statistics (page Samples.loaded)) n
           eq_refl eq_refl Hn).
Defined.

End AnalysisFacts.

(** ** The fish layer *)
Module AwarenessFacts.

Import Awareness.

Local Open Scope Q_scope.

Example move_wraps_right :
  x (move {| innerWidth := 800; innerHeight := 600 |}
       {| x := 7995 # 10; y := 10; dx := 1; dy := 0; scale := 1;
          color := "hsl(200, 80%, 50%)" |})
  = - (50).
Proof. reflexivity. Qed.

Lemma gt_false a b : gt a b = false -> a <= b.
Proof. unfold gt. intros H. apply Qle_bool_iff. destruct (Qle_bool a b); easy. Qed.

Lemma lt_false a b : lt a b = false -> b <= a.
Proof. unfold lt. intros H. apply Qle_bool_iff. destruct (Qle_bool b a); easy. Qed.

Lemma move_on_screen w f :
  0 <= innerWidth w -> 0 <= innerHeight w -> on_screen w (move w f).
Proof.
  intros Hw Hh. unfold on_screen, move. simpl.
  destruct (gt (x f + dx f) (innerWidth w)) eqn:Hx1;
    [|apply gt_false in Hx1];
  destruct (gt (y f + dy f) (innerHeight w)) eqn:Hy1;
    [|apply gt_false in Hy1| |apply gt_false in Hy1];
  repeat match goal with
         | |- context [lt ?a ?b] =>
             let E := fresh "E" in
             destruct (lt a b) eqn:E; [|apply lt_false in E]
         end;
  repeat split; try lra; try apply Qle_refl.
Qed.

Lemma animate_looks w fishes : map looks (animate w fishes) = map looks fishes.
Proof.
  unfold animate. rewrite map_map. apply map_ext. intros f. reflexivity.
Qed.

Lemma frames_looks windows : forall fishes,
  map looks (frames windows fishes) = map looks fishes.
Proof.
  induction windows as [|w ws IH]; intros fishes; simpl; [reflexivity|].
  unfold frames in IH. rewrite IH. apply animate_looks.
Qed.

(** X20.  However many frames have passed and however the window was
    resized, there are as many fishes as before, each with its
    velocity, scale and colour; after a frame taken in a window of
    non-negative size, every fish lies between -50 and the width and
    between 0 and the height of that window, wherever it was. *)
Theorem fishes_stay_on_screen windows w fishes :
  0 <= innerWidth w ->
  0 <= innerHeight w ->
  let after := frames (windows ++ [w]) fishes in
  Forall (on_screen w) after /\
  length after = length fishes /\
  map looks after = map looks fishes.
Proof.
  intros Hw Hh after.
  assert (map looks after = map looks fishes) as Hlooks
    by apply frames_looks.
  split; [|split; [|exact Hlooks]].
  - subst after. unfold frames. rewrite fold_left_app. simpl.
    unfold animate at 1. apply Forall_map, Forall_forall.
    intros f _. apply move_on_screen; assumption.
  - rewrite <- (length_map looks after), Hlooks. apply length_map.
Qed.

Lemma fishes_stay_on_screen_witness :
  Forall (on_screen {| innerWidth := 800; innerHeight := 600 |})
    (frames [ {| innerWidth := 1024; innerHeight := 768 |};
              {| innerWidth := 800; innerHeight := 600 |} ]
       [ {| x := 1023; y := 767; dx := 1 # 2; dy := - (1 # 2); scale := 1;
            color := "hsl(200, 80%, 50%)" |} ]).
Proof.
  apply (fishes_stay_on_screen
           [ {| innerWidth := 1024; innerHeight := 768 |} ]
           {| innerWidth := 800; innerHeight := 600 |}
           [ {| x := 1023; y := 767; dx := 1 # 2; dy := - (1 # 2);
                scale := 1; color := "hsl(200, 80%, 50%)" |} ]);
    discriminate.
Defined.

End AwarenessFacts.
